(** * Computer-use tool engine: tool results, tools, dispatch and the
      sampling loop of [computer_use_api.py], as a shallow embedding.

    Python values are modelled as the code uses them: [Optional[str]] is
    [option string], a dict keyed by path or by tool name is a [gmap], the
    message log is a list that only grows, and every effect the code has
    (spawning a process, writing a file, calling the model service, calling
    an observer callback) is recorded in an explicit state. *)

From Stdlib Require Import ZArith Ascii String DecimalString DecimalNat DecimalFacts.
From stdpp Require Import base gmap strings list.


(** ** Python string primitives used by the tools *)

Module PyStr.

Definition nl : ascii := "010"%char.
Definition tab : ascii := "009"%char.
Definition NL : string := String nl "".
Definition TAB : string := String tab "".

(** [str(n)] for a non-negative [int]. *)
Definition of_nat (n : nat) : string := NilZero.string_of_uint (Nat.to_uint n).

(** [str(z)] for an [int]. *)
Definition of_Z (z : Z) : string := NilZero.string_of_int (Z.to_int z).

(** [sep.join(parts)]. *)
Fixpoint join (sep : string) (parts : list string) : string :=
  match parts with
  | [] => ""
  | [p] => p
  | p :: rest => p +:+ sep +:+ join sep rest
  end.

(** [s.split(c)] for a one-character separator: never the empty list. *)
Fixpoint split (c : ascii) (s : string) : list string :=
  match s with
  | EmptyString => [""]
  | String a rest =>
      if Ascii.eqb a c then "" :: split c rest
      else match split c rest with
           | l :: ls => String a l :: ls
           | [] => [String a ""]
           end
  end.

(** [s.startswith(p)]. *)
Fixpoint startswith (p s : string) : bool :=
  match p, s with
  | EmptyString, _ => true
  | String a p', String b s' => Ascii.eqb a b && startswith p' s'
  | String _ _, EmptyString => false
  end.

(** [sub in s]. *)
Fixpoint contains (sub s : string) : bool :=
  startswith sub s ||
  match s with
  | EmptyString => false
  | String _ s' => contains sub s'
  end.

(** Scan of [s] for non-overlapping matches of a non-empty [sub], left to
    right; [skip] characters belong to the match just found. *)
Fixpoint count_from (sub : string) (skip : nat) (s : string) : nat :=
  match s with
  | EmptyString => 0
  | String _ s' =>
      match skip with
      | S k => count_from sub k s'
      | O => if startswith sub s
             then S (count_from sub (String.length sub - 1) s')
             else count_from sub 0 s'
      end
  end.

(** [s.count(sub)]: non-overlapping occurrences; the empty string is
    counted once between every two characters and at both ends. *)
Definition count (sub s : string) : nat :=
  match sub with
  | EmptyString => S (String.length s)
  | _ => count_from sub 0 s
  end.

Fixpoint replace_from (old new : string) (skip : nat) (s : string) : string :=
  match s with
  | EmptyString => ""
  | String a s' =>
      match skip with
      | S k => replace_from old new k s'
      | O => if startswith old s
             then new +:+ replace_from old new (String.length old - 1) s'
             else String a (replace_from old new 0 s')
      end
  end.

Fixpoint intersperse (new : string) (s : string) : string :=
  match s with
  | EmptyString => new
  | String a s' => new +:+ String a (intersperse new s')
  end.

(** [s.replace(old, new)]: every non-overlapping occurrence. *)
Definition replace (old new s : string) : string :=
  match old with
  | EmptyString => intersperse new s
  | _ => replace_from old new 0 s
  end.

(** [f"{n:6}"]: decimal, right-aligned in a field of six characters. *)
Fixpoint spaces (k : nat) : string :=
  match k with O => "" | S k' => String " "%char (spaces k') end.

Definition rjust6 (n : nat) : string :=
  let d := of_nat n in spaces (6 - String.length d) +:+ d.

(** [str(xs)] for a list of non-negative ints. *)
Definition repr_list (xs : list nat) : string :=
  "[" +:+ join ", " (map of_nat xs) +:+ "]".

(** Truth value of an [Optional[str]]: [None] and [""] are false. *)
Definition truthy (o : option string) : bool :=
  match o with
  | Some s => negb (String.eqb s "")
  | None => false
  end.

(** [x if x else None]. *)
Definition or_none (s : string) : option string :=
  if String.eqb s "" then None else Some s.

End PyStr.

(** ** ToolResult *)

Record ToolResult := mkToolResult {
  output : option string;
  error : option string;
  base64_image : option string;
  system : option string
}.

Definition ToolResult_bool (r : ToolResult) : bool :=
  PyStr.truthy (output r) || PyStr.truthy (error r)
  || PyStr.truthy (base64_image r) || PyStr.truthy (system r).

Definition result_output (s : string) : ToolResult := mkToolResult (Some s) None None None.
Definition result_error (s : string) : ToolResult := mkToolResult None (Some s) None None.
Definition result_system (s : string) : ToolResult := mkToolResult None None None (Some s).

(** ** Content items of a message *)

Inductive ImageSource := Base64Png (data : string).

Inductive ResultBlock :=
| RText (text : string)
| RImage (source : ImageSource).

(** The [content] of a tool-result item is what the code stores under that
    key: a bare string or a list of blocks. *)
Inductive ResultContent :=
| ContentStr (text : string)
| ContentBlocks (blocks : list ResultBlock).

Record ToolResultParam := mkToolResultParam {
  content : ResultContent;
  tool_use_id : string;
  is_error : bool
}.

Definition with_system (r : ToolResult) (text : string) : string :=
  match system r with
  | Some sys => if PyStr.truthy (system r)
                then "<system>" +:+ sys +:+ "</system>" +:+ PyStr.NL +:+ text
                else text
  | None => text
  end.

Definition _make_api_tool_result (result : ToolResult) (id : string) : ToolResultParam :=
  if PyStr.truthy (error result) then
    mkToolResultParam (ContentStr (with_system result (default "" (error result)))) id true
  else
    let text_part :=
      if PyStr.truthy (output result)
      then [RText (with_system result (default "" (output result)))] else [] in
    let image_part :=
      if PyStr.truthy (base64_image result)
      then [RImage (Base64Png (default "" (base64_image result)))] else [] in
    mkToolResultParam (ContentBlocks (text_part ++ image_part)) id false.

(** ** The machine the tools act on *)

(** Text is held as the sequence of its UTF-8 code units, a lone surrogate
    as the three units its code point would take; bytes are held as they
    are. [bytes.decode()] and the text layer of a file go from one to the
    other. *)

Definition cr : ascii := "013"%char.

Definition code (a : ascii) : N := N_of_ascii a.

Definition between (lo hi : N) (a : ascii) : bool :=
  ((lo <=? code a) && (code a <=? hi))%N.

(** The strict UTF-8 decoder as an automaton: at [Start] a character
    begins; [Need n lo hi] waits for [n] more bytes, the next of them
    within [lo..hi]. *)
Inductive Utf8State :=
| Start
| Need (n : nat) (lo hi : N).

Fixpoint utf8_scan (st : Utf8State) (data : string) : bool :=
  match data with
  | EmptyString => match st with Start => true | Need _ _ _ => false end
  | String a rest =>
      match st with
      | Start =>
          if between 0 127 a then utf8_scan Start rest
          else if between 194 223 a then utf8_scan (Need 1 128 191) rest
          else if between 224 224 a then utf8_scan (Need 2 160 191) rest
          else if between 225 236 a then utf8_scan (Need 2 128 191) rest
          else if between 237 237 a then utf8_scan (Need 2 128 159) rest
          else if between 238 239 a then utf8_scan (Need 2 128 191) rest
          else if between 240 240 a then utf8_scan (Need 3 144 191) rest
          else if between 241 243 a then utf8_scan (Need 3 128 191) rest
          else if between 244 244 a then utf8_scan (Need 3 128 143) rest
          else false
      | Need n lo hi =>
          if between lo hi a then
            match n with
            | S (S n') => utf8_scan (Need (S n') 128 191) rest
            | _ => utf8_scan Start rest
            end
          else false
      end
  end.

Definition utf8_valid (data : string) : bool := utf8_scan Start data.

(** [data.decode()]: the text, or [None] for [UnicodeDecodeError]. *)
Definition bytes_decode (data : string) : option string :=
  if utf8_valid data then Some data else None.

(** What reading in text mode does to line ends: CR LF and a lone CR both
    become LF. *)
Fixpoint universal_newlines (s : string) : string :=
  match s with
  | EmptyString => EmptyString
  | String a rest =>
      if Ascii.eqb a cr then
        match rest with
        | String b rest' =>
            if Ascii.eqb b PyStr.nl then String PyStr.nl (universal_newlines rest')
            else String PyStr.nl (universal_newlines rest)
        | EmptyString => String PyStr.nl EmptyString
        end
      else String a (universal_newlines rest)
  end.

(** [os.linesep]. *)
Inductive LineSep := LF | CRLF.

(** What writing in text mode does to line ends: every LF becomes the
    line separator of the platform. *)
Fixpoint out_newlines (sep : LineSep) (s : string) : string :=
  match s with
  | EmptyString => EmptyString
  | String a rest =>
      if Ascii.eqb a PyStr.nl then
        match sep with
        | LF => String PyStr.nl (out_newlines sep rest)
        | CRLF => String cr (String PyStr.nl (out_newlines sep rest))
        end
      else String a (out_newlines sep rest)
  end.

(** The exceptions of class [Exception] that the platform raises under the
    tools, each with what it is about. *)
Inductive Failure :=
| UnicodeDecodeError (data : string)
| UnicodeEncodeError (text : string)
| FileExistsError (path : string)
| FileNotFoundError (path : string)
| NotADirectoryError (path : string)
| IsADirectoryError (path : string)
| PermissionError (path : string)
| MultipleValuesForSelf (callee : string).

(** What the interpreter and the operating system decide. *)
Record Runtime := mkRuntime {
  str_of : Failure -> string;               (* str(e) *)
  locale_decode : string -> option string;  (* the codec of the locale, on bytes *)
  locale_encode : string -> option string;  (* the codec of the locale, on text *)
  linesep : LineSep;
  Path : string -> string;                  (* str(Path(p)) *)
  is_absolute : string -> bool;             (* Path.is_absolute, on str(Path(p)) *)
  parents : string -> list string;          (* Path.parents, nearest first *)
  basename : string -> string;              (* Path.name *)
  normcase : string -> string               (* what equality and hash of a Path go by *)
}.

(** A finished or running child process, as [communicate] sees it:
    [finishes_after] is the time in milliseconds after which both streams
    are closed, [None] for a process that never exits by itself. Streams
    hold the bytes written. *)
Record Process := mkProcess {
  stdout : string;
  stderr : string;
  returncode : Z;
  finishes_after : option N
}.

Inductive ShellEvent :=
| Spawned (cmd : string)
| Killed (cmd : string).

(** What is on disk at a path: the bytes of a regular file, or a
    directory; [writable] is whether the process may write the file, or
    make entries in the directory. *)
Inductive DiskNode :=
| DFile (data : string) (writable : bool)
| DDir (writable : bool).

Record World := mkWorld {
  exec : string -> Process;                  (* what the shell does with a command *)
  shell_log : list ShellEvent;               (* processes spawned and killed *)
  runtime : Runtime;
  disk : gmap string DiskNode;               (* the file system, by str of the path *)
  writes : list (string * string);           (* every call of write_text *)
  _file_history : gmap string (list string)  (* FileTool._file_history *)
}.

Record DirEntry := mkDirEntry {
  entry_name : string;   (* item.name *)
  entry_str : string     (* str(item) *)
}.

(** A path as the text layer shows it: what [read_text] returns or raises
    for a regular file, what [iterdir] yields for a directory. *)
Inductive Node :=
| File (text : string)
| Unreadable (why : Failure)
| Dir (entries : list DirEntry).

(** [path.read_text()] on the bytes of a regular file. *)
Definition read_text (rt : Runtime) (data : string) : option string :=
  universal_newlines <$> locale_decode rt data.

(** [path.iterdir()], in the order of the map. *)
Definition children (rt : Runtime) (d : gmap string DiskNode) (path : string)
  : list DirEntry :=
  omap (fun kv : string * DiskNode =>
          if decide (head (parents rt kv.1) = Some path)
          then Some (mkDirEntry (basename rt kv.1) kv.1) else None)
       (map_to_list d).

Definition node_of (rt : Runtime) (d : gmap string DiskNode) (path : string)
    (n : DiskNode) : Node :=
  match n with
  | DFile data _ =>
      match read_text rt data with
      | Some text => File text
      | None => Unreadable (UnicodeDecodeError data)
      end
  | DDir _ => Dir (children rt d path)
  end.

(** The file system as [exists], [is_dir], [read_text] and [iterdir] show
    it. *)
Definition files (w : World) : gmap string Node :=
  map_imap (fun path n => Some (node_of (runtime w) (disk w) path n)) (disk w).

Definition log_shell (evs : list ShellEvent) (w : World) : World :=
  mkWorld (exec w) (shell_log w ++ evs) (runtime w) (disk w) (writes w) (_file_history w).

Definition set_disk (d : gmap string DiskNode) (w : World) : World :=
  mkWorld (exec w) (shell_log w) (runtime w) d (writes w) (_file_history w).

Definition log_write (path text : string) (w : World) : World :=
  mkWorld (exec w) (shell_log w) (runtime w) (disk w) (writes w ++ [(path, text)])
          (_file_history w).

Definition set_history (h : gmap string (list string)) (w : World) : World :=
  mkWorld (exec w) (shell_log w) (runtime w) (disk w) (writes w) h.


(** The bytes [write_text] stores for [text]. *)
Definition written (rt : Runtime) (text : string) : option string :=
  locale_encode rt (out_newlines (linesep rt) text).

(** [open(path, 'w')]: [None] when the file is opened, and with that
    emptied or made. *)
Definition open_for_writing (path : string) (w : World) : option Failure :=
  match disk w !! path with
  | Some (DDir _) => Some (IsADirectoryError path)
  | Some (DFile _ false) => Some (PermissionError path)
  | Some (DFile _ true) => None
  | None =>
      match parents (runtime w) path with
      | parent :: _ =>
          match disk w !! parent with
          | Some (DDir true) => None
          | Some (DDir false) => Some (PermissionError path)
          | Some (DFile _ _) => Some (NotADirectoryError path)
          | None => Some (FileNotFoundError path)
          end
      | [] => Some (FileNotFoundError path)
      end
  end.

(** [path.write_text(text)]: the file is opened for writing, which empties
    it, and the text is then encoded and written; text that the codec
    refuses leaves the file empty. *)
Definition write_text (path text : string) (w : World) : option Failure * World :=
  let w0 := log_write path text w in
  match open_for_writing path w with
  | Some f => (Some f, w0)
  | None =>
      match written (runtime w) text with
      | Some data => (None, set_disk (<[path := DFile data true]> (disk w)) w0)
      | None =>
          (Some (UnicodeEncodeError text),
           set_disk (<[path := DFile "" true]> (disk w)) w0)
      end
  end.

(** The ancestors that are missing, nearest first, and the nearest one
    that is there. *)
Fixpoint missing_ancestors (d : gmap string DiskNode) (ancestors : list string)
  : list string * option DiskNode :=
  match ancestors with
  | [] => ([], None)
  | p :: up =>
      match d !! p with
      | Some n => ([], Some n)
      | None => let '(missing, found) := missing_ancestors d up in (p :: missing, found)
      end
  end.

(** [path.parent.mkdir(parents=True, exist_ok=True)]. A path without
    parents is its own parent. Failures are classed as POSIX classes them;
    their text is the runtime's. *)
Definition mkdir_parents (path : string) (w : World) : option Failure * World :=
  match parents (runtime w) path with
  | [] => (Some (FileNotFoundError path), w)
  | parent :: up =>
      match missing_ancestors (disk w) (parent :: up) with
      | ([], Some (DDir _)) => (None, w)
      | ([], Some (DFile _ _)) => (Some (FileExistsError parent), w)
      | (missing, Some (DDir true)) =>
          (None, set_disk (foldr (fun p d => <[p := DDir true]> d) (disk w) missing) w)
      | (missing, Some (DDir false)) => (Some (PermissionError (List.last missing parent)), w)
      | (_, Some (DFile _ _)) => (Some (NotADirectoryError parent), w)
      | (missing, None) => (Some (FileNotFoundError (List.last missing parent)), w)
      end
  end.

(** What awaiting the call of a tool does: it returns a ToolResult, or
    raises an [Exception] whose [str] is [msg]. Signals outside class
    [Exception] (interpreter exit, keyboard interrupt, cancellation of the
    coroutine) are not failures of a tool and have no place in this
    type. *)
Inductive Outcome :=
| Returns (r : ToolResult)
| Raises (msg : string).

(** ** CommandTool *)

Module CommandTool.

Definition name : string := "command".

Definition timeout_ms : N := 60000.

(** [asyncio.wait_for(process.communicate(), timeout)]: the two streams,
    or [None] for [TimeoutError]. *)
Definition wait_for (p : Process) (timeout : N) : option (string * string) :=
  match finishes_after p with
  | Some t => if (t <? timeout)%N then Some (stdout p, stderr p) else None
  | None => None
  end.

(** [stream.decode() if stream else ""]. *)
Definition decode (stream : string) : option string :=
  if String.eqb stream "" then Some "" else bytes_decode stream.

(** Only the timeout is handled: a stream that does not decode makes the
    call raise, with the process spawned and not killed. *)
Definition call (command : option string) (restart : bool) (w : World)
  : Outcome * World :=
  if restart then (Returns (result_system "Command tool has been restarted."), w)
  else match command with
  | None => (Returns (result_error "No command provided."), w)
  | Some cmd =>
      let w1 := log_shell [Spawned cmd] w in
      match wait_for (exec w cmd) timeout_ms with
      | Some (out, err) =>
          match decode out with
          | None => (Raises (str_of (runtime w) (UnicodeDecodeError out)), w1)
          | Some stdout_str =>
              match decode err with
              | None => (Raises (str_of (runtime w) (UnicodeDecodeError err)), w1)
              | Some stderr_str =>
                  (Returns (mkToolResult (PyStr.or_none stdout_str)
                                         (PyStr.or_none stderr_str) None None), w1)
              end
          end
      | None =>
          (Returns (result_error "Command timed out after 60 seconds"),
           log_shell [Killed cmd] w1)
      end
  end.

End CommandTool.

(** ** FileTool *)

(** The methods take a [Path]; it is held as its [str], by which the
    messages print it and the file system finds it. The history is a
    dictionary keyed by the [Path] itself, which goes by [normcase]. *)

Module FileTool.

Definition name : string := "str_replace_editor".

Definition history_key (path : string) (w : World) : string :=
  normcase (runtime w) path.

Definition history_of (path : string) (w : World) : list string :=
  default [] (_file_history w !! history_key path w).

(** [if path not in h: h[path] = []] then [h[path].append(text)]. *)
Definition push_history (path text : string) (w : World) : World :=
  set_history (<[history_key path w := history_of path w ++ [text]]> (_file_history w)) w.

(** [lines[lo:hi]] for non-negative bounds. *)
Definition slice {A} (lo hi : nat) (l : list A) : list A := drop lo (take hi l).

(** The loop [for i, line in enumerate(...)] building [numbered_content]. *)
Fixpoint number_from (i : nat) (ls : list string) : string :=
  match ls with
  | [] => ""
  | line :: rest =>
      PyStr.rjust6 (i + 1) +:+ PyStr.TAB +:+ line +:+ PyStr.NL
      +:+ number_from (S i) rest
  end.

Definition numbered (file_content : string) : string :=
  number_from 0 (PyStr.split PyStr.nl file_content).

Definition view_file (path file_content : string) : ToolResult :=
  result_output ("Contents of " +:+ path +:+ ":" +:+ PyStr.NL +:+ numbered file_content).

Definition view (path : string) (view_range : option (list Z)) (w : World)
  : ToolResult :=
  match files w !! path with
  | Some (Dir entries) =>
      match view_range with
      | Some (_ :: _) =>
          result_error "The `view_range` parameter is not allowed when `path` points to a directory."
      | _ =>
          let shown := filter (fun e => negb (PyStr.startswith "." (entry_name e))) entries in
          result_output ("Directory listing of " +:+ path +:+ ":" +:+ PyStr.NL
                         +:+ PyStr.join PyStr.NL (map entry_str shown))
      end
  | None => result_error ("The path " +:+ path +:+ " does not exist.")
  | Some (Unreadable why) =>
      result_error ("Error reading file " +:+ path +:+ ": " +:+ str_of (runtime w) why)
  | Some (File file_content) =>
      match view_range with
      | Some ((_ :: _) as range) =>
          match range with
          | [start; end_] =>
              let lines := PyStr.split PyStr.nl file_content in
              let n := Z.of_nat (length lines) in
              if ((start <? 1) || (n <? start))%Z then
                result_error ("Invalid start line " +:+ PyStr.of_Z start
                              +:+ ", should be between 1 and " +:+ PyStr.of_Z n)
              else if (negb (end_ =? -1) && ((end_ <? start) || (n <? end_)))%Z then
                result_error ("Invalid end line " +:+ PyStr.of_Z end_
                              +:+ ", should be between " +:+ PyStr.of_Z start
                              +:+ " and " +:+ PyStr.of_Z n +:+ " or -1")
              else if (end_ =? -1)%Z then
                view_file path (PyStr.join PyStr.NL (drop (Z.to_nat (start - 1)) lines))
              else
                view_file path
                  (PyStr.join PyStr.NL (slice (Z.to_nat (start - 1)) (Z.to_nat end_) lines))
          | _ => result_error "Invalid `view_range`. It should be a list of two integers."
          end
      | _ => view_file path file_content
      end
  end.

(** The [except] branch of a method: the message and [str(e)]. *)
Definition failed (what path : string) (why : Failure) (w : World) : ToolResult :=
  result_error (what +:+ path +:+ ": " +:+ str_of (runtime w) why).

Definition create (path file_text : string) (w : World) : ToolResult * World :=
  match files w !! path with
  | Some _ =>
      (result_error ("File already exists at: " +:+ path
                     +:+ ". Cannot overwrite files using command `create`."), w)
  | None =>
      match mkdir_parents path w with
      | (Some why, w1) => (failed "Error creating file " path why w, w1)
      | (None, w1) =>
          match write_text path file_text w1 with
          | (Some why, w2) => (failed "Error creating file " path why w, w2)
          | (None, w2) =>
              (result_output ("File created successfully at: " +:+ path),
               set_history (<[history_key path w := [file_text]]> (_file_history w2)) w2)
          end
      end
  end.

(** [[i+1 for i, line in enumerate(lines) if old_str in line]]. *)
Fixpoint matching_lines (old_str : string) (i : nat) (lines : list string) : list nat :=
  match lines with
  | [] => []
  | line :: rest =>
      if PyStr.contains old_str line
      then (i + 1) :: matching_lines old_str (S i) rest
      else matching_lines old_str (S i) rest
  end.

Definition str_replace (path old_str new_str : string) (w : World)
  : ToolResult * World :=
  match files w !! path with
  | None => (result_error ("The path " +:+ path +:+ " does not exist."), w)
  | Some (Dir _) =>
      (result_error ("The path " +:+ path +:+ " is a directory and cannot be edited."), w)
  | Some (Unreadable why) => (failed "Error replacing text in " path why w, w)
  | Some (File file_content) =>
      let occurrences := PyStr.count old_str file_content in
      if occurrences =? 0 then
        (result_error ("No replacement was performed, old_str `" +:+ old_str
                       +:+ "` did not appear verbatim in " +:+ path +:+ "."), w)
      else if 1 <? occurrences then
        let lines := matching_lines old_str 0 (PyStr.split PyStr.nl file_content) in
        (result_error ("Multiple occurrences of old_str `" +:+ old_str +:+ "` in lines "
                       +:+ PyStr.repr_list lines +:+ ". Please ensure it is unique."), w)
      else
        let w1 := push_history path file_content w in
        let new_content := PyStr.replace old_str new_str file_content in
        match write_text path new_content w1 with
        | (None, w2) =>
            (result_output ("The file " +:+ path +:+ " has been edited. Replaced '"
                            +:+ old_str +:+ "' with '" +:+ new_str +:+ "'."), w2)
        | (Some why, w2) => (failed "Error replacing text in " path why w, w2)
        end
  end.

Definition insert (path : string) (insert_line : Z) (new_str : string) (w : World)
  : ToolResult * World :=
  match files w !! path with
  | None => (result_error ("The path " +:+ path +:+ " does not exist."), w)
  | Some (Dir _) =>
      (result_error ("The path " +:+ path +:+ " is a directory and cannot be edited."), w)
  | Some (Unreadable why) => (failed "Error inserting text in " path why w, w)
  | Some (File file_content) =>
      let lines := PyStr.split PyStr.nl file_content in
      let n := Z.of_nat (length lines) in
      if ((insert_line <? 0) || (n <? insert_line))%Z then
        (result_error ("Invalid insert_line " +:+ PyStr.of_Z insert_line
                       +:+ ", should be between 0 and " +:+ PyStr.of_Z n +:+ "."), w)
      else
        let w1 := push_history path file_content w in
        let k := Z.to_nat insert_line in
        let result_lines := take k lines ++ PyStr.split PyStr.nl new_str ++ drop k lines in
        match write_text path (PyStr.join PyStr.NL result_lines) w1 with
        | (None, w2) =>
            (result_output ("The file " +:+ path +:+ " has been edited. Inserted text at line "
                            +:+ PyStr.of_Z insert_line +:+ "."), w2)
        | (Some why, w2) => (failed "Error inserting text in " path why w, w2)
        end
  end.

(** [list.pop()] on a non-empty list: the last element and the rest. *)
Definition pop (l : list string) : option (string * list string) :=
  match rev l with
  | [] => None
  | x :: r => Some (x, rev r)
  end.

Definition undo_edit (path : string) (w : World) : ToolResult * World :=
  match files w !! path with
  | None => (result_error ("The path " +:+ path +:+ " does not exist."), w)
  | Some _ =>
      match _file_history w !! history_key path w with
      | None => (result_error ("No edit history found for " +:+ path +:+ "."), w)
      | Some stack =>
          match pop stack with
          | None => (result_error ("No edit history found for " +:+ path +:+ "."), w)
          | Some (previous_content, stack') =>
              let w1 := set_history (<[history_key path w := stack']> (_file_history w)) w in
              match write_text path previous_content w1 with
              | (None, w2) =>
                  (result_output ("Last edit to " +:+ path +:+ " undone successfully."), w2)
              | (Some why, w2) => (failed "Error undoing edit in " path why w, w2)
              end
          end
      end
  end.

End FileTool.

(** ** Tool inputs and tools as the dispatcher sees them *)

(** The JSON-like values of a tool's [input] mapping. *)
Inductive PyVal :=
| VNone
| VBool (b : bool)
| VInt (z : Z)
| VStr (s : string)
| VList (l : list Z).

Definition py_truthy (v : PyVal) : bool :=
  match v with
  | VNone => false
  | VBool b => b
  | VInt z => negb (z =? 0)%Z
  | VStr s => negb (String.eqb s "")
  | VList l => match l with [] => false | _ => true end
  end.

Record Tool := mkTool {
  tool_name : string;
  invoke : gmap string PyVal -> World -> Outcome * World
}.

(** [CommandTool()] called on the keyword arguments of [tool_input]: a key
    [self] collides with the bound instance and the call raises before the
    body runs; [command] defaults to [None], [restart] to [False], other
    keys are ignored; a [command] that is not a string makes
    [create_subprocess_shell] raise. *)
Definition CommandTool_tool : Tool :=
  mkTool CommandTool.name (fun tool_input w =>
    match tool_input !! "self" with
    | Some _ => (Raises (str_of (runtime w) (MultipleValuesForSelf "CommandTool.__call__")), w)
    | None =>
        let restart := py_truthy (default (VBool false) (tool_input !! "restart")) in
        match default VNone (tool_input !! "command") with
        | VNone => CommandTool.call None restart w
        | VStr cmd => CommandTool.call (Some cmd) restart w
        | _ => if restart
               then CommandTool.call None restart w
               else (Raises "cmd must be a string", w)
        end
    end).

(** ** ToolCollection *)

Record ToolCollection := mkToolCollection {
  tools : list Tool;
  tool_map : gmap string Tool
}.

(** [{tool.name: tool for tool in tools}]: a later tool replaces an earlier
    one of the same name. *)
Definition build_tool_map (ts : list Tool) : gmap string Tool :=
  foldl (fun m t => <[tool_name t := t]> m) ∅ ts.

Definition ToolCollection_init (ts : list Tool) : ToolCollection :=
  mkToolCollection ts (build_tool_map ts).

Definition run (tc : ToolCollection) (name : string) (tool_input : gmap string PyVal)
    (w : World) : ToolResult * World :=
  match tool_map tc !! name with
  | None => (result_error ("Tool " +:+ name +:+ " is not available"), w)
  | Some tool =>
      match invoke tool tool_input w with
      | (Returns r, w') => (r, w')
      | (Raises msg, w') =>
          (result_error ("Error executing tool " +:+ name +:+ ": " +:+ msg), w')
      end
  end.

(** ** Messages and the model service *)

(** A block of [response.content]: a text block, or any other block with
    the fields of its [model_dump()]. *)
Inductive ResponseBlock :=
| BetaTextBlock (text : string)
| BetaOtherBlock (type_ id name : string) (input : gmap string PyVal).

(** An item of an assistant message. *)
Inductive BlockParam :=
| TextParam (text : string)
| DumpParam (type_ id name : string) (input : gmap string PyVal).

Definition block_type (b : BlockParam) : string :=
  match b with
  | TextParam _ => "text"
  | DumpParam t _ _ _ => t
  end.

Definition is_tool_use (b : BlockParam) : bool := String.eqb (block_type b) "tool_use".

Inductive Role := user | assistant.

Inductive MessageContent :=
| Blocks (items : list BlockParam)
| Results (items : list ToolResultParam).

Record Message := mkMessage {
  role : Role;
  msg_content : MessageContent
}.

Definition _response_to_params (response : list ResponseBlock) : list BlockParam :=
  map (fun block =>
         match block with
         | BetaTextBlock text => TextParam text
         | BetaOtherBlock t id name input => DumpParam t id name input
         end) response.

(** The errors the loop catches, all of class [APIError]. *)
Inductive ApiError :=
| APIStatusError (status : Z) (message : string)
| APIResponseValidationError (message : string)
| APIConnectionError (message : string).

(** One call of the model service: [create] raises, or it returns a raw
    response whose [parse] raises, or whose [parse] gives the content. *)
Inductive ServiceReply :=
| CreateRaises (e : ApiError)
| ParseRaises (e : ApiError)
| Parsed (response : list ResponseBlock).

(** The service answers the [n]-th call of a loop on the log it is sent. *)
Definition Service := nat -> list Message -> ServiceReply.

(** ** The sampling loop *)

(** What the loop does that an observer can see, in order. *)
Inductive Event :=
| ModelCall (log : list Message)
| ApiResponse (err : option ApiError)        (* api_response_callback *)
| OutputBlock (b : BlockParam)               (* output_callback *)
| ToolOutput (r : ToolResult) (id : string). (* tool_output_callback *)

Record LoopState := mkLoopState {
  messages : list Message;
  world : World;
  trace : list Event
}.

Definition is_model_call (e : Event) : bool :=
  match e with ModelCall _ => true | _ => false end.

Definition model_calls (tr : list Event) : nat := length (filter is_model_call tr).

(** The [for content_block in response_params] loop: the result items
    collected so far, the machine, and the trace. *)
Fixpoint run_blocks (tc : ToolCollection) (blocks : list BlockParam)
    (acc : list ToolResultParam) (w : World) (tr : list Event)
  : list ToolResultParam * World * list Event :=
  match blocks with
  | [] => (acc, w, tr)
  | b :: rest =>
      let tr1 := tr ++ [OutputBlock b] in
      match b with
      | DumpParam t id name input =>
          if is_tool_use b then
            let '(result, w') := run tc name input w in
            run_blocks tc rest (acc ++ [_make_api_tool_result result id]) w'
                       (tr1 ++ [ToolOutput result id])
          else run_blocks tc rest acc w tr1
      | TextParam _ => run_blocks tc rest acc w tr1
      end
  end.

(** One pass through the body of [while True]. *)
Inductive Step :=
| Return (st : LoopState)   (* [return messages] *)
| Again (st : LoopState).   (* back to the top of the loop *)

Definition iteration (svc : Service) (tc : ToolCollection) (st : LoopState) : Step :=
  let tr0 := trace st ++ [ModelCall (messages st)] in
  match svc (model_calls (trace st)) (messages st) with
  | CreateRaises e =>
      Return (mkLoopState (messages st) (world st) (tr0 ++ [ApiResponse (Some e)]))
  | ParseRaises e =>
      Return (mkLoopState (messages st) (world st)
                          (tr0 ++ [ApiResponse None; ApiResponse (Some e)]))
  | Parsed response =>
      let response_params := _response_to_params response in
      let msgs := messages st ++ [mkMessage assistant (Blocks response_params)] in
      let '(tool_result_content, w, tr) :=
        run_blocks tc response_params [] (world st) (tr0 ++ [ApiResponse None]) in
      match tool_result_content with
      | [] => Return (mkLoopState msgs w tr)
      | _ => Again (mkLoopState (msgs ++ [mkMessage user (Results tool_result_content)]) w tr)
      end
  end.

(** [_sampling_loop], run for at most [fuel] passes: [None] when the model
    is still asking for tools after that many. *)
Fixpoint _sampling_loop (fuel : nat) (svc : Service) (tc : ToolCollection)
    (st : LoopState) : option LoopState :=
  match fuel with
  | O => None
  | S fuel' =>
      match iteration svc tc st with
      | Return st' => Some st'
      | Again st' => _sampling_loop fuel' svc tc st'
      end
  end.

Definition run_conversation (fuel : nat) (svc : Service) (tc : ToolCollection)
    (user_message : string) (w : World) : option LoopState :=
  _sampling_loop fuel svc tc
    (mkLoopState [mkMessage user (Blocks [TextParam user_message])] w []).

(** The tool invocations of a response, in order: id, name, input. *)
Definition tool_uses (blocks : list BlockParam)
  : list (string * string * gmap string PyVal) :=
  omap (fun b => match b with
                 | DumpParam t id name input =>
                     if is_tool_use b then Some (id, name, input) else None
                 | TextParam _ => None
                 end) blocks.

(** Dispatching a sequence of invocations one after the other, each on the
    machine the previous one left, and converting each result under the id
    of its invocation. *)
Fixpoint dispatch_all (tc : ToolCollection)
    (uses : list (string * string * gmap string PyVal)) (w : World)
  : list ToolResultParam * World :=
  match uses with
  | [] => ([], w)
  | (id, name, input) :: rest =>
      let '(result, w1) := run tc name input w in
      let '(items, w2) := dispatch_all tc rest w1 in
      (_make_api_tool_result result id :: items, w2)
  end.

(** ** The specification's wording, for comparison with the code *)

(** The conversion rule as the specification words it: the content of a
    result item is always a sequence of blocks, a single text block when
    the error is set. A field is set when it is neither [None] nor empty. *)
Definition spec_tool_result_item (result : ToolResult) (id : string) : ToolResultParam :=
  if PyStr.truthy (error result) then
    mkToolResultParam
      (ContentBlocks [RText (with_system result (default "" (error result)))]) id true
  else
    let text_part :=
      if PyStr.truthy (output result)
      then [RText (with_system result (default "" (output result)))] else [] in
    let image_part :=
      if PyStr.truthy (base64_image result)
      then [RImage (Base64Png (default "" (base64_image result)))] else [] in
    mkToolResultParam (ContentBlocks (text_part ++ image_part)) id false.

(** The numbers of the lines in which an occurrence of [sub] starts, as
    the specification words the listing of a non-unique match: [line] is
    the number of the line the scan is in. *)
Fixpoint spec_occurrence_lines (sub : string) (line : nat) (s : string) : list nat :=
  (if PyStr.startswith sub s then [line] else []) ++
  match s with
  | EmptyString => []
  | String a s' =>
      spec_occurrence_lines sub (if Ascii.eqb a PyStr.nl then S line else line) s'
  end.

(** ** A sample machine, for running the model *)

Definition sample_exec (cmd : string) : Process :=
  if String.eqb cmd "sleep 120" then mkProcess "" "" 0 (Some 120000%N)
  else if String.eqb cmd "echo hi" then mkProcess ("hi" +:+ PyStr.NL) "" 0 (Some 5%N)
  else if String.eqb cmd "git fetch" then mkProcess "" "From origin" 0 (Some 900%N)
  else if String.eqb cmd "exit 3" then mkProcess "" "" 3 (Some 2%N)
  else if String.eqb cmd "printf '\377'" then mkProcess (String "255" "") "" 0 (Some 1%N)
  else mkProcess "" "" 0 None.

Definition sample_text : string :=
  PyStr.join PyStr.NL ["one"; "two"; "three"; "four"; "five"; "six"; "seven"; "eight"].

Definition twice_text : string := PyStr.join PyStr.NL ["a"; "b"; "a"; "b"].

(** A rendering of failures that names the class and what it is about;
    the wording of an interpreter differs by platform and version. *)
Definition sample_str_of (f : Failure) : string :=
  match f with
  | UnicodeDecodeError _ => "'utf-8' codec can't decode bytes"
  | UnicodeEncodeError _ => "'utf-8' codec can't encode characters"
  | FileExistsError path => "File exists: '" +:+ path +:+ "'"
  | FileNotFoundError path => "No such file or directory: '" +:+ path +:+ "'"
  | NotADirectoryError path => "Not a directory: '" +:+ path +:+ "'"
  | IsADirectoryError path => "Is a directory: '" +:+ path +:+ "'"
  | PermissionError path => "Permission denied: '" +:+ path +:+ "'"
  | MultipleValuesForSelf callee => callee +:+ "() got multiple values for argument 'self'"
  end.

Definition backslash : ascii := "\"%char.

(** The components of a Windows path that hangs from a drive root. *)
Definition components (path : string) : list string := PyStr.split backslash path.

Definition is_root (path : string) : bool :=
  match components path with
  | [_; last] => String.eqb last ""
  | _ => false
  end.

(** The ancestors of [C:\a\b\c], nearest first: [C:\a\b], [C:\a], [C:\]. *)
Definition sample_parents (path : string) : list string :=
  match components path with
  | drive :: parts =>
      if is_root path then []
      else
        let dirs := removelast parts in
        rev (map (fun k => drive +:+ "\" +:+ PyStr.join "\" (take k dirs))
                 (seq 0 (S (length dirs))))
  | [] => []
  end.

Definition sample_basename (path : string) : string := List.last (components path) "".

(** A drive letter, a colon and a backslash. *)
Definition sample_is_absolute (path : string) : bool :=
  match path with
  | String drive (String colon (String sep _)) =>
      (between 65 90 drive || between 97 122 drive)
      && Ascii.eqb colon ":" && Ascii.eqb sep backslash
  | _ => false
  end.

Fixpoint lower (s : string) : string :=
  match s with
  | EmptyString => EmptyString
  | String a rest =>
      String (if between 65 90 a then ascii_of_N (code a + 32) else a) (lower rest)
  end.

(** A Windows machine whose locale codec is UTF-8. *)
Definition sample_runtime : Runtime :=
  mkRuntime sample_str_of bytes_decode
            (fun text => if utf8_valid text then Some text else None)
            CRLF (PyStr.replace "/" "\") sample_is_absolute sample_parents
            sample_basename lower.

(** Two files written on this machine, one that came from a POSIX machine,
    one that is read-only and one that is not text. *)
Definition sample_world : World :=
  mkWorld sample_exec [] sample_runtime
          {[ "C:\" := DDir true;
             "C:\notes.txt" := DFile (out_newlines CRLF sample_text) true;
             "C:\twice.txt" := DFile (out_newlines CRLF twice_text) true;
             "C:\unix.txt" := DFile ("x" +:+ PyStr.NL +:+ "y") true;
             "C:\locked.txt" := DFile "keep" false;
             "C:\blob.bin" := DFile (String "255" "") true;
             "C:\data" := DDir true ]}
          [] ∅.

(** A service that asks for two shell commands, then answers in text, and
    is overloaded afterwards. *)
Definition sample_service : Service := fun n _ =>
  match n with
  | 0 => Parsed [BetaTextBlock "Checking.";
                 BetaOtherBlock "tool_use" "toolu_01" "command" {[ "command" := VStr "echo hi" ]};
                 BetaOtherBlock "tool_use" "toolu_02" "command" {[ "command" := VStr "git fetch" ]}]
  | 1 => Parsed [BetaTextBlock "Done."]
  | 2 => ParseRaises (APIResponseValidationError "Data returned by API invalid")
  | _ => CreateRaises (APIStatusError 529 "Overloaded")
  end.

Definition sample_tools : ToolCollection := ToolCollection_init [CommandTool_tool].

Definition sample_start : LoopState :=
  mkLoopState [mkMessage user (Blocks [TextParam "update the checkout"])] sample_world [].

Definition state_of (s : Step) : LoopState :=
  match s with Return st => st | Again st => st end.

(** The sample loop after one and after two passes. *)
Definition sample_second : LoopState :=
  state_of (iteration sample_service sample_tools sample_start).

Definition sample_third : LoopState :=
  state_of (iteration sample_service sample_tools sample_second).

(** [c in s] for a single character. *)
Fixpoint has_char (c : ascii) (s : string) : bool :=
  match s with
  | EmptyString => false
  | String a s' => Ascii.eqb a c || has_char c s'
  end.

(** [s.lstrip(' ')]. *)
Fixpoint lstrip (s : string) : string :=
  match s with
  | String a s' => if Ascii.eqb a " " then lstrip s' else s
  | EmptyString => ""
  end.

(** ** ToolResult.replace *)

(** [setattr(result, k, v)] as far as the four fields go: another name
    creates an attribute no code reads. *)
Definition setattr (r : ToolResult) (k : string) (v : option string) : ToolResult :=
  if String.eqb k "output" then mkToolResult v (error r) (base64_image r) (system r)
  else if String.eqb k "error" then mkToolResult (output r) v (base64_image r) (system r)
  else if String.eqb k "base64_image" then mkToolResult (output r) (error r) v (system r)
  else if String.eqb k "system" then mkToolResult (output r) (error r) (base64_image r) v
  else r.

Definition getattr (r : ToolResult) (k : string) : option string :=
  if String.eqb k "output" then output r
  else if String.eqb k "error" then error r
  else if String.eqb k "base64_image" then base64_image r
  else if String.eqb k "system" then system r
  else None.

(** [result.replace] on keyword arguments: a copy of the four fields,
    then one [setattr] per keyword argument, in the order they were given. *)
Definition ToolResult_replace (r : ToolResult) (kwargs : list (string * option string))
  : ToolResult :=
  foldl (fun result kv => setattr result (fst kv) (snd kv))
        (mkToolResult (output r) (error r) (base64_image r) (system r)) kwargs.

(** ** ComputerTool *)

Module ComputerTool.

Definition name : string := "computer".

(** The calls the tool makes on [pyautogui] and on the clock. *)
Inductive GuiEvent :=
| MoveTo (x y : Z)
| MouseDown (x y : Z)
| MouseUp (x y : Z)
| Hotkey (keys : list string)
| TypeText (text : string)
| Click (target : option (Z * Z)) (button : string)
| DoubleClick
| Settle       (* asyncio.sleep(self._screenshot_delay) *)
| Screenshot.  (* pyautogui.screenshot(), screenshot.save(path), path.read_bytes() *)

(** What the steps of [take_screenshot] come to: the file is saved and
    read, in base64; or it is not there afterwards; or one of the steps
    (grabbing the screen, saving, reading the file back) raises. *)
Inductive Shot :=
| Saved (png : string)
| NotSaved
| ShotRaises (msg : string).

(** The desktop: what [pyautogui.position()] answers and how taking a
    screenshot ends, both after the events so far. *)
Record Desktop := mkDesktop {
  position : list GuiEvent -> Z * Z;
  shot : list GuiEvent -> Shot;
  gui_log : list GuiEvent
}.

Definition act (evs : list GuiEvent) (d : Desktop) : Desktop :=
  mkDesktop (position d) (shot d) (gui_log d ++ evs).

(** No step has a handler: what one raises, the call raises, after the
    action that came before. *)
Definition take_screenshot (output_msg : string) (d : Desktop) : Outcome * Desktop :=
  let d1 := act [Settle; Screenshot] d in
  match shot d1 (gui_log d1) with
  | Saved png => (Returns (mkToolResult (Some output_msg) None (Some png) None), d1)
  | NotSaved => (Returns (result_error "Failed to take screenshot"), d1)
  | ShotRaises msg => (Raises msg, d1)
  end.

Definition is_in (action : string) (names : list string) : bool :=
  existsb (String.eqb action) names.

Definition index_error : string := "list index out of range".

Definition call (action : string) (text : option string) (coordinate : option (list Z))
    (d : Desktop) : Outcome * Desktop :=
  if is_in action ["mouse_move"; "left_click_drag"] then
    match coordinate, text with
    | None, _ => (Returns (result_error ("coordinate is required for " +:+ action)), d)
    | Some _, Some _ => (Returns (result_error ("text is not accepted for " +:+ action)), d)
    | Some (x :: y :: _), None =>
        if String.eqb action "mouse_move" then
          take_screenshot ("Mouse moved to " +:+ PyStr.of_Z x +:+ ", " +:+ PyStr.of_Z y)
                          (act [MoveTo x y] d)
        else
          let '(current_x, current_y) := position d (gui_log d) in
          take_screenshot ("Mouse dragged from " +:+ PyStr.of_Z current_x +:+ ","
                           +:+ PyStr.of_Z current_y +:+ " to " +:+ PyStr.of_Z x +:+ ","
                           +:+ PyStr.of_Z y)
                          (act [MouseDown current_x current_y; MoveTo x y; MouseUp x y] d)
    | Some _, None => (Raises index_error, d)
    end
  else if is_in action ["key"; "type"] then
    match text, coordinate with
    | None, _ => (Returns (result_error ("text is required for " +:+ action)), d)
    | Some _, Some _ =>
        (Returns (result_error ("coordinate is not accepted for " +:+ action)), d)
    | Some t, None =>
        if String.eqb action "key" then
          take_screenshot ("Pressed key: " +:+ t) (act [Hotkey (PyStr.split "+" t)] d)
        else
          take_screenshot ("Typed: " +:+ t) (act [TypeText t] d)
    end
  else if is_in action ["left_click"; "right_click"; "middle_click"; "double_click";
                        "screenshot"; "cursor_position"] then
    match text with
    | Some _ => (Returns (result_error ("text is not accepted for " +:+ action)), d)
    | None =>
        if match coordinate with Some _ => negb (String.eqb action "left_click")
                               | None => false end then
          (Returns (result_error ("coordinate is not accepted for " +:+ action)), d)
        else if String.eqb action "screenshot" then take_screenshot "Screenshot taken" d
        else if String.eqb action "cursor_position" then
          let '(x, y) := position d (gui_log d) in
          (Returns (result_output ("X=" +:+ PyStr.of_Z x +:+ ",Y=" +:+ PyStr.of_Z y)), d)
        else if String.eqb action "left_click" then
          match coordinate with
          | Some (x :: y :: _) =>
              take_screenshot ("Performed " +:+ action) (act [Click (Some (x, y)) "left"] d)
          | Some [_] => (Raises index_error, d)
          | _ => take_screenshot ("Performed " +:+ action) (act [Click None "left"] d)
          end
        else if String.eqb action "right_click" then
          take_screenshot ("Performed " +:+ action) (act [Click None "right"] d)
        else if String.eqb action "middle_click" then
          take_screenshot ("Performed " +:+ action) (act [Click None "middle"] d)
        else
          take_screenshot ("Performed " +:+ action) (act [DoubleClick] d)
    end
  else (Returns (result_error ("Invalid action: " +:+ action)), d).

End ComputerTool.

(** ** FileTool, as called with keyword arguments *)

(** [FileTool.__call__]: the methods are given [Path(path)], the message
    about a relative path prints [path] as it came. *)
Definition FileTool_call (command path : string)
    (file_text : option string) (view_range : option (list Z))
    (old_str new_str : option string) (insert_line : option Z) (w : World)
  : ToolResult * World :=
  let _path := Path (runtime w) path in
  if negb (is_absolute (runtime w) _path) then
    (result_error ("The path " +:+ path
                   +:+ " is not an absolute path, it should start with a drive letter."), w)
  else if String.eqb command "view" then (FileTool.view _path view_range w, w)
  else if String.eqb command "create" then
    match file_text with
    | None => (result_error "Parameter `file_text` is required for command: create", w)
    | Some text => FileTool.create _path text w
    end
  else if String.eqb command "str_replace" then
    match old_str with
    | None => (result_error "Parameter `old_str` is required for command: str_replace", w)
    | Some old => FileTool.str_replace _path old (default "" new_str) w
    end
  else if String.eqb command "insert" then
    match insert_line, new_str with
    | None, _ => (result_error "Parameter `insert_line` is required for command: insert", w)
    | Some _, None => (result_error "Parameter `new_str` is required for command: insert", w)
    | Some line, Some text => FileTool.insert _path line text w
    end
  else if String.eqb command "undo_edit" then FileTool.undo_edit _path w
  else (result_error ("Unrecognized command " +:+ command +:+ "."), w).

(** ** Sequences of edits and undos *)






(** ** What the callbacks of the loop were given *)

Definition output_blocks (tr : list Event) : list BlockParam :=
  omap (fun e => match e with OutputBlock b => Some b | _ => None end) tr.

Definition tool_outputs (tr : list Event) : list (ToolResult * string) :=
  omap (fun e => match e with ToolOutput r id => Some (r, id) | _ => None end) tr.

(** Roles alternate, the first one being [first]. *)
Fixpoint alternates (first : Role) (roles : list Role) : bool :=
  match roles with
  | [] => true
  | r :: rest =>
      match first, r with
      | user, user => alternates assistant rest
      | assistant, assistant => alternates user rest
      | _, _ => false
      end
  end.

(** A desktop whose cursor rests at (10, 20) and on which every screenshot
    is saved. *)
Definition sample_desktop : ComputerTool.Desktop :=
  ComputerTool.mkDesktop (fun _ => (10, 20)%Z) (fun _ => ComputerTool.Saved "iVBORw0KGgo=") [].

(** ** The extension registry and manager ([extension_module.py]) *)

Module Extensions.

(** What awaiting [extension.execute] does. *)
Inductive ExecOutcome :=
| Gives (result : PyVal)
| Fails (msg : string).

Record Extension := mkExtension {
  ext_name : string;
  enabled : bool;
  config : gmap string PyVal;
  execute : list PyVal -> gmap string PyVal -> ExecOutcome
}.

(** The state [Extension.__init__] leaves. *)
Definition fresh (e : Extension) : Prop := enabled e = true /\ config e = ∅.

Definition load_config (cfg : gmap string PyVal) (e : Extension) : Extension :=
  mkExtension (ext_name e) (enabled e) cfg (execute e).

Definition enable (e : Extension) : Extension :=
  mkExtension (ext_name e) true (config e) (execute e).

Definition disable (e : Extension) : Extension :=
  mkExtension (ext_name e) false (config e) (execute e).

Record Registry := mkRegistry {
  extensions : gmap string Extension;
  extension_dirs : list string
}.

Definition Registry_init : Registry := mkRegistry ∅ ["extensions"].

Definition register (e : Extension) (reg : Registry) : Registry :=
  mkRegistry (<[ext_name e := e]> (extensions reg)) (extension_dirs reg).

Definition unregister (extension_name : string) (reg : Registry) : Registry :=
  mkRegistry (delete extension_name (extensions reg)) (extension_dirs reg).

Definition get_extension (extension_name : string) (reg : Registry) : option Extension :=
  extensions reg !! extension_name.

(** [isdir] is [os.path.isdir]. *)
Definition add_extension_dir (isdir : string -> bool) (directory : string) (reg : Registry)
  : Registry :=
  if isdir directory && negb (bool_decide (directory ∈ extension_dirs reg))
  then mkRegistry (extensions reg) (extension_dirs reg ++ [directory])
  else reg.

(** [found directory] lists the instances that [_discover_in_directory]
    creates, one for every extension class of every module of the
    directory that can be loaded and instantiated, in the order it
    registers them. *)
Definition discover_extensions (isdir : string -> bool)
    (found : string -> list Extension) (reg : Registry) : Registry :=
  foldl (fun r directory =>
           if isdir directory then foldl (fun r' e => register e r') r (found directory)
           else r)
        reg (extension_dirs reg).

(** The configuration file, once parsed. *)
Record ConfigFile := mkConfigFile {
  cfg_extension_dirs : list string;
  cfg_extensions : list (string * gmap string PyVal)
}.

(** An object held by the registry is changed in place: the registry
    sees the change under the name it holds the object at. *)
Definition update (extension_name : string) (f : Extension -> Extension) (reg : Registry)
  : Registry :=
  mkRegistry (alter f extension_name (extensions reg)) (extension_dirs reg).

Definition _load_config (isdir : string -> bool) (cfg : ConfigFile) (reg : Registry)
  : Registry :=
  let reg1 := foldl (fun r directory => add_extension_dir isdir directory r)
                    reg (cfg_extension_dirs cfg) in
  foldl (fun r entry =>
           let '(ext_name, ext_config) := entry in
           match get_extension ext_name r with
           | Some _ =>
               update ext_name
                 (fun e =>
                    let e1 := load_config ext_config e in
                    if py_truthy (default (VBool true) (ext_config !! "enabled"))
                    then enable e1 else disable e1) r
           | None => r
           end)
        reg1 (cfg_extensions cfg).

(** [initialize(config_file)]: [cfg] is the parsed file, [None] when no
    file name is given, the file is not there, or it cannot be read as
    JSON. *)
Definition initialize (isdir : string -> bool) (found : string -> list Extension)
    (cfg : option ConfigFile) (reg : Registry) : Registry :=
  let reg1 := match cfg with
              | Some c => _load_config isdir c reg
              | None => reg
              end in
  discover_extensions isdir found reg1.

Definition execute_extension (extension_name : string) (args : list PyVal)
    (kwargs : gmap string PyVal) (reg : Registry) : PyVal :=
  match get_extension extension_name reg with
  | None => VNone
  | Some extension =>
      if negb (enabled extension) then VNone
      else match execute extension args kwargs with
           | Gives result => result
           | Fails _ => VNone
           end
  end.

Definition enable_extension (extension_name : string) (reg : Registry) : bool * Registry :=
  match get_extension extension_name reg with
  | Some _ => (true, update extension_name enable reg)
  | None => (false, reg)
  end.

Definition disable_extension (extension_name : string) (reg : Registry) : bool * Registry :=
  match get_extension extension_name reg with
  | Some _ => (true, update extension_name disable reg)
  | None => (false, reg)
  end.

(** Two extensions for running the model: a search that answers and a
    speech engine whose driver is missing. *)
Definition sample_search : Extension :=
  mkExtension "web_search" true ∅ (fun _ _ => Gives (VStr "3 results")).

Definition sample_speech : Extension :=
  mkExtension "text_to_speech" true ∅ (fun _ _ => Fails "No module named 'pyttsx3'").

Definition sample_found (directory : string) : list Extension :=
  if String.eqb directory "extensions" then [sample_search; sample_speech] else [].

Definition sample_config : ConfigFile :=
  mkConfigFile ["custom_extensions"]
               [("web_search", {[ "enabled" := VBool false; "max_results" := VInt 3 ]})].

End Extensions.

(** * Properties *)

(** ** Strings *)



Lemma with_system_note out err img sys text :
  sys <> "" ->
  with_system (mkToolResult out err img (Some sys)) text
  = "<system>" +:+ sys +:+ "</system>" +:+ PyStr.NL +:+ text.
Proof. intros H. unfold with_system. simpl. by destruct (String.eqb_spec sys ""). Qed.

Lemma with_system_none out err img text :
  with_system (mkToolResult out err img None) text = text.
Proof. done. Qed.

(** ** C5: conversion of a ToolResult *)

(** C5, as stated, fails: for a result whose error is set the code stores
    the error text itself under [content], not a list holding one text
    block, so the item differs from the one the specification describes. *)
Lemma make_api_tool_result_error_not_block :
  _make_api_tool_result (result_error "boom") "toolu_01"
  <> spec_tool_result_item (result_error "boom") "toolu_01".
Proof. vm_compute. discriminate. Qed.

(** C5 (amended): for every ToolResult and id the item carries the id; when
    the error is set its content is the error text as a bare string, with
    the system note prepended when present, and [is_error] is true; when it
    is not set the item is the one the specification describes: a text
    block for the output (system note prepended) when the output is set,
    then an image block when an image is set, [is_error] false, and an
    empty block list when neither output nor image is set. *)
Theorem make_api_tool_result_conversion (result : ToolResult) (id : string) :
  let item := _make_api_tool_result result id in
  tool_use_id item = id
  /\ (PyStr.truthy (error result) = true ->
      exists e, error result = Some e /\ e <> ""
        /\ content item = ContentStr (with_system result e) /\ is_error item = true)
  /\ (PyStr.truthy (error result) = false ->
      item = spec_tool_result_item result id
      /\ is_error item = false
      /\ content item =
         ContentBlocks
           ((if PyStr.truthy (output result)
             then [RText (with_system result (default "" (output result)))] else [])
            ++ (if PyStr.truthy (base64_image result)
                then [RImage (Base64Png (default "" (base64_image result)))] else [])))
  /\ (PyStr.truthy (error result) = false -> PyStr.truthy (output result) = false ->
      PyStr.truthy (base64_image result) = false ->
      item = mkToolResultParam (ContentBlocks []) id false).
Proof.
  unfold _make_api_tool_result, spec_tool_result_item.
  destruct (PyStr.truthy (error result)) eqn:He; simpl.
  - repeat split; try done.
    intros _. destruct (error result) as [e|] eqn:Ee; [|done].
    exists e. repeat split; try done.
    intros ->. done.
  - repeat split; try done.
    intros _ -> ->. done.
Qed.

Lemma make_api_tool_result_conversion_witness :
  content (_make_api_tool_result (mkToolResult None (Some "denied") None (Some "note")) "t1")
  = ContentStr ("<system>note</system>" +:+ PyStr.NL +:+ "denied")
  /\ _make_api_tool_result (mkToolResult (Some "ok") None (Some "aGk=") None) "t2"
     = mkToolResultParam (ContentBlocks [RText "ok"; RImage (Base64Png "aGk=")]) "t2" false
  /\ _make_api_tool_result (mkToolResult None None None None) "t3"
     = mkToolResultParam (ContentBlocks []) "t3" false.
Proof.
  pose proof (make_api_tool_result_conversion
                (mkToolResult None (Some "denied") None (Some "note")) "t1") as (_ & H1 & _).
  pose proof (make_api_tool_result_conversion
                (mkToolResult (Some "ok") None (Some "aGk=") None) "t2") as (_ & _ & H2 & _).
  pose proof (make_api_tool_result_conversion
                (mkToolResult None None None None) "t3") as (_ & _ & _ & H3).
  split; [|split].
  - destruct (H1 eq_refl) as (e & He & _ & Hc & _). injection He as <-. exact Hc.
  - destruct (H2 eq_refl) as (Hs & _). rewrite Hs. reflexivity.
  - exact (H3 eq_refl eq_refl eq_refl).
Defined.

(** ** C8, C9: the shell-command tool *)







(** A command that completes at once and writes one byte that is not
    UTF-8 to stdout, nothing to stderr: the call raises, and no result
    with captured streams is returned. *)
Lemma command_output_not_utf8_raises :
  finishes_after (exec sample_world "printf '\377'") = Some 1%N
  /\ stderr (exec sample_world "printf '\377'") = ""
  /\ CommandTool.call (Some "printf '\377'") false sample_world
     = (Raises "'utf-8' codec can't decode bytes",
        log_shell [Spawned "printf '\377'"] sample_world).
Proof. repeat split. Qed.


(** A command that exits with status 0, in time, and writes nothing to
    stderr, yet is surfaced to the model as an error item: its stdout is
    not UTF-8, the tool raises and the dispatcher reports the failure. *)
Lemma command_error_without_stderr :
  let p := exec sample_world "printf '\377'" in
  let r := fst (run sample_tools "command" {[ "command" := VStr "printf '\377'" ]}
                    sample_world) in
  finishes_after p = Some 1%N
  /\ returncode p = 0%Z
  /\ stderr p = ""
  /\ r = result_error "Error executing tool command: 'utf-8' codec can't decode bytes"
  /\ is_error (_make_api_tool_result r "toolu_01") = true.
Proof. repeat split. Qed.




(** ** C1: dispatch by name *)

Lemma foldl_tool_map_absent (ts : list Tool) (m : gmap string Tool) (name : string) :
  name ∉ map tool_name ts ->
  foldl (fun m t => <[tool_name t := t]> m) m ts !! name = m !! name.
Proof.
  revert m. induction ts as [|t ts IH]; intros m Hnot; simpl in *; [done|].
  apply not_elem_of_cons in Hnot as [Hne Hrest].
  rewrite IH by done. by rewrite lookup_insert_ne.
Qed.

Lemma build_tool_map_absent (ts : list Tool) (name : string) :
  name ∉ map tool_name ts -> build_tool_map ts !! name = None.
Proof. intros H. unfold build_tool_map. by rewrite foldl_tool_map_absent. Qed.

Lemma foldl_tool_map_named (ts : list Tool) (m : gmap string Tool) (name : string) (t : Tool) :
  (forall t', m !! name = Some t' -> tool_name t' = name) ->
  foldl (fun m t => <[tool_name t := t]> m) m ts !! name = Some t ->
  tool_name t = name.
Proof.
  revert m. induction ts as [|t0 ts IH]; intros m Hm; simpl; [by apply Hm|].
  apply IH. intros t'. destruct (decide (tool_name t0 = name)) as [<-|Hne].
  - rewrite lookup_insert_eq. by intros [= <-].
  - rewrite lookup_insert_ne by done. apply Hm.
Qed.

(** A registered name is mapped to a tool of that name. *)
Lemma build_tool_map_named (ts : list Tool) (name : string) (t : Tool) :
  build_tool_map ts !! name = Some t -> tool_name t = name.
Proof. apply foldl_tool_map_named. intros t'. by rewrite lookup_empty. Qed.

(** C1: dispatch is a total function into ToolResult. For a name no tool is
    registered under, the result's error is "Tool <name> is not available"
    and no tool runs; when the tool found raises, the result's error is
    "Error executing tool <name>: <message>"; otherwise the result is the
    tool's own. In both failure cases the error is set. *)
Theorem run_never_raises (ts : list Tool) (name : string)
    (tool_input : gmap string PyVal) (w : World) :
  let tc := ToolCollection_init ts in
  (exists r w', run tc name tool_input w = (r, w'))
  /\ (name ∉ map tool_name ts ->
      run tc name tool_input w
      = (result_error ("Tool " +:+ name +:+ " is not available"), w)
      /\ PyStr.truthy (error (fst (run tc name tool_input w))) = true)
  /\ (forall tool msg w',
        tool_map tc !! name = Some tool ->
        invoke tool tool_input w = (Raises msg, w') ->
        run tc name tool_input w
        = (result_error ("Error executing tool " +:+ name +:+ ": " +:+ msg), w')
        /\ PyStr.truthy (error (fst (run tc name tool_input w))) = true)
  /\ (forall tool r w',
        tool_map tc !! name = Some tool ->
        invoke tool tool_input w = (Returns r, w') ->
        run tc name tool_input w = (r, w')).
Proof.
  intros tc. split; [|split; [|split]].
  - destruct (run tc name tool_input w) as [r w']. by exists r, w'.
  - intros Hnot. unfold run. subst tc. cbn [tool_map ToolCollection_init].
    rewrite (build_tool_map_absent _ _ Hnot). done.
  - intros tool msg w' Hl Hi. unfold run. rewrite Hl, Hi. done.
  - intros tool r w' Hl Hi. unfold run. by rewrite Hl, Hi.
Qed.

Lemma run_never_raises_witness :
  run (ToolCollection_init [CommandTool_tool]) "browser" ∅ sample_world
  = (result_error "Tool browser is not available", sample_world)
  /\ run (ToolCollection_init [CommandTool_tool]) "command"
         {[ "command" := VInt 7 ]} sample_world
     = (result_error "Error executing tool command: cmd must be a string", sample_world).
Proof.
  pose proof (run_never_raises [CommandTool_tool] "browser" ∅ sample_world)
    as (_ & H1 & _).
  pose proof (run_never_raises [CommandTool_tool] "command"
                {[ "command" := VInt 7 ]} sample_world) as (_ & _ & H2 & _).
  split.
  - apply H1. vm_compute. intros H. by repeat (apply elem_of_cons in H as [H|H]; [done|]);
      apply elem_of_nil in H.
  - apply (H2 CommandTool_tool "cmd must be a string" sample_world); reflexivity.
Defined.

(** ** C2, C3, C4: the sampling loop *)

Lemma model_calls_app tr1 tr2 : model_calls (tr1 ++ tr2) = model_calls tr1 + model_calls tr2.
Proof. unfold model_calls. by rewrite filter_app, length_app. Qed.

Lemma make_api_tool_result_id r id : tool_use_id (_make_api_tool_result r id) = id.
Proof. unfold _make_api_tool_result. by destruct (PyStr.truthy (error r)). Qed.

Lemma model_calls_none ext :
  Forall (fun e => is_model_call e = false) ext -> model_calls ext = 0.
Proof.
  unfold model_calls. induction 1 as [|e ext He _ IH]; [done|].
  rewrite filter_cons. destruct (decide (is_model_call e)) as [Ht|_]; [|done].
  rewrite He in Ht. done.
Qed.

(** The block loop collects exactly the converted results of the tool
    invocations, dispatched in order; it extends the trace with callback
    events only. *)
Lemma run_blocks_dispatch tc blocks : forall acc w tr,
  exists ext,
    run_blocks tc blocks acc w tr
    = (acc ++ fst (dispatch_all tc (tool_uses blocks) w),
       snd (dispatch_all tc (tool_uses blocks) w), tr ++ ext)
    /\ Forall (fun e => is_model_call e = false) ext.
Proof.
  induction blocks as [|b rest IH]; intros acc w tr; simpl.
  - exists []. by rewrite !app_nil_r.
  - destruct b as [text | t id name input]; simpl.
    + destruct (IH acc w (tr ++ [OutputBlock (TextParam text)])) as (ext & -> & Hc).
      exists (OutputBlock (TextParam text) :: ext). rewrite <- app_assoc.
      split; [done|]. by constructor.
    + destruct (is_tool_use (DumpParam t id name input)) eqn:Huse; simpl.
      * destruct (run tc name input w) as [result w1] eqn:Hrun.
        destruct (IH (acc ++ [_make_api_tool_result result id]) w1
                     ((tr ++ [OutputBlock (DumpParam t id name input)])
                        ++ [ToolOutput result id])) as (ext & -> & Hc).
        exists (OutputBlock (DumpParam t id name input) :: ToolOutput result id :: ext).
        destruct (dispatch_all tc (tool_uses rest) w1) as [items w2]. simpl.
        rewrite <- !app_assoc. split; [done|]. by repeat constructor.
      * destruct (IH acc w (tr ++ [OutputBlock (DumpParam t id name input)]))
          as (ext & -> & Hc).
        exists (OutputBlock (DumpParam t id name input) :: ext). rewrite <- app_assoc.
        split; [done|]. by constructor.
Qed.

Lemma dispatch_all_ids tc uses : forall w,
  map tool_use_id (fst (dispatch_all tc uses w)) = map (fun u => fst (fst u)) uses.
Proof.
  induction uses as [|[[id name] input] rest IH]; intros w; simpl; [done|].
  destruct (run tc name input w) as [result w1].
  specialize (IH w1). destruct (dispatch_all tc rest w1) as [items w2]. simpl in *.
  by rewrite make_api_tool_result_id, IH.
Qed.

Lemma dispatch_all_length tc uses w :
  length (fst (dispatch_all tc uses w)) = length uses.
Proof.
  rewrite <- (length_map tool_use_id), dispatch_all_ids. apply length_map.
Qed.

(** What a pass does with a parsed response. *)
Lemma iteration_parsed svc tc st response :
  svc (model_calls (trace st)) (messages st) = Parsed response ->
  let params := _response_to_params response in
  let log := messages st ++ [mkMessage assistant (Blocks params)] in
  let items := fst (dispatch_all tc (tool_uses params) (world st)) in
  let w' := snd (dispatch_all tc (tool_uses params) (world st)) in
  exists ext,
    Forall (fun e => is_model_call e = false) ext
    /\ iteration svc tc st
       = match items with
         | [] => Return (mkLoopState log w'
                           (trace st ++ ModelCall (messages st) :: ApiResponse None :: ext))
         | _ => Again (mkLoopState (log ++ [mkMessage user (Results items)]) w'
                         (trace st ++ ModelCall (messages st) :: ApiResponse None :: ext))
         end.
Proof.
  intros Hsvc params log items w'. unfold iteration. rewrite Hsvc.
  destruct (run_blocks_dispatch tc (_response_to_params response) [] (world st)
              ((trace st ++ [ModelCall (messages st)]) ++ [ApiResponse None]))
    as (ext & -> & Hext).
  exists ext. split; [done|]. subst params log items w'. simpl.
  rewrite <- !app_assoc. reflexivity.
Qed.

(** Every pass through the loop body calls the model exactly once, on the
    log as it stands. *)
Lemma iteration_one_call svc tc st st' :
  iteration svc tc st = Return st' \/ iteration svc tc st = Again st' ->
  exists rest, trace st' = trace st ++ ModelCall (messages st) :: rest
               /\ model_calls rest = 0
               /\ model_calls (trace st') = S (model_calls (trace st)).
Proof.
  assert (Hcount : forall rest, model_calls rest = 0 ->
            model_calls (trace st ++ ModelCall (messages st) :: rest)
            = S (model_calls (trace st))).
  { intros rest Hr. rewrite model_calls_app. unfold model_calls in *.
    rewrite filter_cons. simpl. rewrite Hr. lia. }
  destruct (svc (model_calls (trace st)) (messages st)) as [e | e | response] eqn:Hsvc.
  - unfold iteration. rewrite Hsvc. intros [[= <-] | [=]]. simpl.
    exists [ApiResponse (Some e)]. rewrite <- app_assoc. simpl.
    split; [done|]. split; [done|]. by apply Hcount.
  - unfold iteration. rewrite Hsvc. intros [[= <-] | [=]]. simpl.
    exists [ApiResponse None; ApiResponse (Some e)]. rewrite <- app_assoc. simpl.
    split; [done|]. split; [done|]. by apply Hcount.
  - destruct (iteration_parsed svc tc st response Hsvc) as (ext & Hext & ->).
    assert (Hr : model_calls (ApiResponse None :: ext) = 0).
    { apply model_calls_none. by constructor. }
    destruct (fst (dispatch_all tc (tool_uses (_response_to_params response)) (world st)));
      intros [[= <-] | [= <-]]; simpl;
      (eexists; split; [reflexivity|]; split; [exact Hr | by apply Hcount]).
Qed.

(** C2: when the decomposed response holds no tool invocation the pass
    returns, and the loop's output is the log with the assistant message
    appended and nothing more; when it holds at least one, the pass goes
    back to the top of the loop, whose next pass calls the model exactly
    once more, on the extended log. *)
Theorem loop_continues_iff_tool_use (svc : Service) (tc : ToolCollection)
    (st : LoopState) (response : list ResponseBlock) :
  svc (model_calls (trace st)) (messages st) = Parsed response ->
  let params := _response_to_params response in
  let log := messages st ++ [mkMessage assistant (Blocks params)] in
  (tool_uses params = [] ->
   exists st', iteration svc tc st = Return st'
     /\ messages st' = log /\ world st' = world st
     /\ model_calls (trace st') = S (model_calls (trace st))
     /\ forall fuel, _sampling_loop (S fuel) svc tc st = Some st')
  /\ (1 <= length (tool_uses params) ->
      exists st', iteration svc tc st = Again st'
        /\ model_calls (trace st') = S (model_calls (trace st))
        /\ (forall fuel, _sampling_loop (S fuel) svc tc st = _sampling_loop fuel svc tc st')
        /\ exists st'' rest,
             state_of (iteration svc tc st') = st''
             /\ trace st'' = trace st' ++ ModelCall (messages st') :: rest
             /\ model_calls rest = 0
             /\ model_calls (trace st'') = S (S (model_calls (trace st)))).
Proof.
  intros Hsvc params log.
  destruct (iteration_parsed svc tc st response Hsvc) as (ext & Hext & Hit).
  fold params in Hit. fold log in Hit. split.
  - intros Hnone. rewrite Hnone in Hit. simpl in Hit.
    eexists. split; [exact Hit|]. simpl. repeat split.
    + destruct (iteration_one_call svc tc st _ (or_introl Hit)) as (_ & _ & _ & Hc).
      exact Hc.
    + intros fuel. simpl. by rewrite Hit.
  - intros Hk.
    pose proof (dispatch_all_length tc (tool_uses params) (world st)) as Hlen.
    destruct (fst (dispatch_all tc (tool_uses params) (world st))) as [|item items] eqn:Hi.
    { simpl in Hlen. lia. }
    eexists. split; [exact Hit|].
    destruct (iteration_one_call svc tc st _ (or_intror Hit)) as (_ & _ & _ & Hc).
    split; [exact Hc|]. split.
    + intros fuel. simpl. by rewrite Hit.
    + match goal with |- context [iteration svc tc ?s] => set (st1 := s) in * end.
      destruct (iteration svc tc st1) as [st2 | st2] eqn:Hnext.
      * destruct (iteration_one_call svc tc st1 st2 (or_introl Hnext)) as (rest & Ht & Hr & Hc2).
        exists st2, rest. rewrite Hc2, Hc. done.
      * destruct (iteration_one_call svc tc st1 st2 (or_intror Hnext)) as (rest & Ht & Hr & Hc2).
        exists st2, rest. rewrite Hc2, Hc. done.
Qed.

Lemma loop_continues_iff_tool_use_witness :
  (exists st', iteration sample_service sample_tools sample_start = Again st'
     /\ model_calls (trace st') = 1)
  /\ (exists st', iteration sample_service sample_tools sample_second = Return st'
        /\ _sampling_loop 1 sample_service sample_tools sample_second = Some st').
Proof.
  split.
  - pose proof (loop_continues_iff_tool_use sample_service sample_tools sample_start
                  _ eq_refl) as [_ H].
    destruct H as (st' & Hit & Hc & _); [vm_compute; lia|].
    exists st'. split; [exact Hit | exact Hc].
  - pose proof (loop_continues_iff_tool_use sample_service sample_tools sample_second
                  [BetaTextBlock "Done."] eq_refl) as [H _].
    destruct (H eq_refl) as (st' & Hit & _ & _ & _ & Hloop).
    exists st'. split; [exact Hit | exact (Hloop 0)].
Defined.

(** C3: when the model call fails, whether the request is rejected, the
    transport fails or the response does not validate, the pass reports the
    error through the response callback as its last act and returns the log
    as it stood, tools untouched; the model was called once in that pass and
    the loop ends there, whatever fuel is left. *)
Theorem service_failure_is_fatal (svc : Service) (tc : ToolCollection)
    (st : LoopState) (e : ApiError) :
  svc (model_calls (trace st)) (messages st) = CreateRaises e
  \/ svc (model_calls (trace st)) (messages st) = ParseRaises e ->
  exists st', iteration svc tc st = Return st'
    /\ messages st' = messages st /\ world st' = world st
    /\ last (trace st') = Some (ApiResponse (Some e))
    /\ model_calls (trace st') = S (model_calls (trace st))
    /\ forall fuel, _sampling_loop (S fuel) svc tc st = Some st'.
Proof.
  intros Hsvc.
  assert (exists st', iteration svc tc st = Return st'
            /\ messages st' = messages st /\ world st' = world st
            /\ last (trace st') = Some (ApiResponse (Some e))) as (st' & Hit & Hm & Hw & Hl).
  { unfold iteration. destruct Hsvc as [-> | ->]; eexists; (split; [reflexivity|]); simpl.
    - by rewrite last_snoc.
    - rewrite (app_assoc _ [ApiResponse None] [ApiResponse (Some e)]).
      by rewrite last_snoc. }
  exists st'. repeat split; try done.
  - by destruct (iteration_one_call svc tc st st' (or_introl Hit)) as (_ & _ & _ & Hc).
  - intros fuel. simpl. by rewrite Hit.
Qed.

Lemma service_failure_is_fatal_witness :
  exists st', _sampling_loop 5 sample_service sample_tools sample_third = Some st'
    /\ messages st' = messages sample_third.
Proof.
  destruct (service_failure_is_fatal sample_service sample_tools sample_third
              (APIResponseValidationError "Data returned by API invalid")
              (or_intror eq_refl)) as (st' & _ & Hm & _ & _ & _ & Hloop).
  exists st'. split; [exact (Hloop 4) | exact Hm].
Defined.

(** C4: a response with at least one tool invocation makes the pass append,
    after the assistant message, exactly one user message; its content is
    the converted results of the invocations, dispatched one after the other
    in the order of the response, and the ids of the items are the ids of
    the invocations in that order. *)
Theorem tool_results_in_order (svc : Service) (tc : ToolCollection)
    (st : LoopState) (response : list ResponseBlock) :
  svc (model_calls (trace st)) (messages st) = Parsed response ->
  let params := _response_to_params response in
  let items := fst (dispatch_all tc (tool_uses params) (world st)) in
  1 <= length (tool_uses params) ->
  exists st', iteration svc tc st = Again st'
    /\ messages st' = messages st ++ [mkMessage assistant (Blocks params);
                                      mkMessage user (Results items)]
    /\ world st' = snd (dispatch_all tc (tool_uses params) (world st))
    /\ length items = length (tool_uses params)
    /\ map tool_use_id items = map (fun u => fst (fst u)) (tool_uses params).
Proof.
  intros Hsvc params items Hk.
  destruct (iteration_parsed svc tc st response Hsvc) as (ext & Hext & Hit).
  fold params in Hit.
  pose proof (dispatch_all_length tc (tool_uses params) (world st)) as Hlen.
  pose proof (dispatch_all_ids tc (tool_uses params) (world st)) as Hids.
  subst items.
  destruct (fst (dispatch_all tc (tool_uses params) (world st))) as [|item rest] eqn:Hi;
    [simpl in Hlen; lia|].
  eexists. split; [exact Hit|]. simpl. rewrite <- app_assoc. simpl.
  repeat split; done.
Qed.

Lemma tool_results_in_order_witness :
  exists st', iteration sample_service sample_tools sample_start = Again st'
    /\ last (messages st')
       = Some (mkMessage user (Results
           [mkToolResultParam (ContentBlocks [RText ("hi" +:+ PyStr.NL)]) "toolu_01" false;
            mkToolResultParam (ContentStr "From origin") "toolu_02" true])).
Proof.
  destruct (tool_results_in_order sample_service sample_tools sample_start _ eq_refl)
    as (st' & Hit & Hm & _); [vm_compute; lia|].
  exists st'. split; [exact Hit|]. rewrite Hm. reflexivity.
Defined.

(** ** The file system under the text layer *)









(** What [write_text] leaves, call by call. *)
Lemma write_text_cases path text w :
  let res := fst (write_text path text w) in
  let w' := snd (write_text path text w) in
  writes w' = writes w ++ [(path, text)]
  /\ _file_history w' = _file_history w
  /\ runtime w' = runtime w /\ exec w' = exec w /\ shell_log w' = shell_log w
  /\ ((exists why, open_for_writing path w = Some why /\ res = Some why
                   /\ disk w' = disk w)
      \/ (open_for_writing path w = None
          /\ exists data, written (runtime w) text = Some data /\ res = None
                          /\ disk w' = <[path := DFile data true]> (disk w))
      \/ (open_for_writing path w = None /\ written (runtime w) text = None
          /\ res = Some (UnicodeEncodeError text)
          /\ disk w' = <[path := DFile "" true]> (disk w))).
Proof.
  unfold write_text. destruct (open_for_writing path w) as [why|] eqn:Ho.
  - repeat split. left. by exists why.
  - destruct (written (runtime w) text) as [data|] eqn:Hw.
    + repeat split. right. left. split; [done|]. by exists data.
    + repeat split. right. right. done.
Qed.


Lemma mkdir_parents_frame path w :
  runtime (snd (mkdir_parents path w)) = runtime w
  /\ writes (snd (mkdir_parents path w)) = writes w
  /\ _file_history (snd (mkdir_parents path w)) = _file_history w.
Proof. unfold mkdir_parents. repeat case_match; done. Qed.

(** ** C6, C7: string replacement and the undo history *)








(** A file on a Windows machine whose lines end in LF alone: after a
    replacement and its undo the file holds CR LF, so its bytes are not
    those from before the edit. *)
Lemma undo_rewrites_line_ends :
  let w1 := snd (FileTool.str_replace "C:\unix.txt" "x" "z" sample_world) in
  disk sample_world !! "C:\unix.txt" = Some (DFile ("x" +:+ PyStr.NL +:+ "y") true)
  /\ fst (FileTool.undo_edit "C:\unix.txt" w1)
     = result_output "Last edit to C:\unix.txt undone successfully."
  /\ disk (snd (FileTool.undo_edit "C:\unix.txt" w1)) !! "C:\unix.txt"
     = Some (DFile ("x" +:+ String cr PyStr.NL +:+ "y") true).
Proof. repeat split. Qed.


(** C6, at a failing input: the file holds the four lines a, b, a, b and the
    old string is the two lines a, b. [count] finds two occurrences, which
    start in lines 1 and 3, nothing is written, and the error message lists
    no line at all, because no single line contains the old string. *)
Theorem str_replace_multiline_lists_no_line :
  let old_str := "a" +:+ PyStr.NL +:+ "b" in
  PyStr.count old_str twice_text = 2
  /\ spec_occurrence_lines old_str 1 twice_text = [1; 3]
  /\ FileTool.matching_lines old_str 0 (PyStr.split PyStr.nl twice_text) = []
  /\ FileTool.str_replace "C:\twice.txt" old_str "z" sample_world
     = (result_error ("Multiple occurrences of old_str `" +:+ old_str
                      +:+ "` in lines []. Please ensure it is unique."), sample_world).
Proof. vm_compute. repeat split; reflexivity. Qed.

(** ** C10: line numbers of a ranged view *)

Lemma append_nil_r (s : string) : s +:+ "" = s.
Proof.
  induction s as [|a s IH]; [done|].
  change (String a (s +:+ "") = String a s). by rewrite IH.
Qed.

Lemma append_assoc (s t u : string) : (s +:+ t) +:+ u = s +:+ t +:+ u.
Proof.
  induction s as [|a s IH]; [done|].
  change (String a ((s +:+ t) +:+ u) = String a (s +:+ t +:+ u)). by rewrite IH.
Qed.

Lemma split_nonempty c s : exists l ls, PyStr.split c s = l :: ls.
Proof.
  induction s as [|a s (l & ls & IH)]; simpl; [by eauto|].
  destruct (Ascii.eqb a c); [by eauto|]. rewrite IH. by eauto.
Qed.

(** No piece of a split contains the separator. *)
Lemma split_pieces c s : Forall (fun l => has_char c l = false) (PyStr.split c s).
Proof.
  induction s as [|a s IH]; simpl; [by repeat constructor|].
  destruct (Ascii.eqb a c) eqn:E; [by constructor|].
  destruct (PyStr.split c s) as [|l ls]; [by repeat constructor; simpl; rewrite E|].
  inversion IH; subst. constructor; [|done]. simpl. by rewrite E.
Qed.

Lemma split_without_sep c p : has_char c p = false -> PyStr.split c p = [p].
Proof.
  induction p as [|a p IH]; simpl; [done|].
  intros H. apply orb_false_iff in H as [E Hp]. rewrite E, (IH Hp). done.
Qed.

Lemma split_app_sep c p t :
  has_char c p = false -> PyStr.split c (p +:+ String c t) = p :: PyStr.split c t.
Proof.
  induction p as [|a p IH]; simpl.
  - intros _. by rewrite Ascii.eqb_refl.
  - intros H. apply orb_false_iff in H as [E Hp]. rewrite E, (IH Hp). done.
Qed.

(** Splitting a join of pieces that hold no newline gives the pieces back. *)
Lemma split_join (ls : list string) :
  ls <> [] -> Forall (fun l => has_char PyStr.nl l = false) ls ->
  PyStr.split PyStr.nl (PyStr.join PyStr.NL ls) = ls.
Proof.
  induction ls as [|p rest IH]; [done|]. intros _ Hall.
  inversion Hall as [|? ? Hp Hrest]; subst.
  destruct rest as [|q rest].
  - simpl. by apply split_without_sep.
  - change (PyStr.join PyStr.NL (p :: q :: rest))
      with (p +:+ String PyStr.nl (PyStr.join PyStr.NL (q :: rest))).
    rewrite (split_app_sep _ _ _ Hp), IH; done.
Qed.

Lemma join_empty_cons (x : string) (rest : list string) :
  PyStr.join "" (x :: rest) = x +:+ PyStr.join "" rest.
Proof. destruct rest; [cbn [PyStr.join]; by rewrite append_nil_r | reflexivity]. Qed.

(** The numbered listing labels the [j]-th line it is given, counting from
    zero, with [i + j + 1]. *)
Lemma number_from_imap (ls : list string) : forall i,
  FileTool.number_from i ls
  = PyStr.join "" (imap (fun j line => PyStr.rjust6 (i + j + 1) +:+ PyStr.TAB
                                       +:+ line +:+ PyStr.NL) ls).
Proof.
  induction ls as [|l ls IH]; intros i; [done|].
  rewrite imap_cons, join_empty_cons. simpl FileTool.number_from.
  rewrite (IH (S i)), !append_assoc. rewrite Nat.add_0_r.
  do 5 f_equal. apply imap_ext. intros j x _. simpl. do 2 f_equal. lia.
Qed.

Lemma to_uint_nonnil n : Nat.to_uint n <> Decimal.Nil.
Proof.
  rewrite <- (DecimalNat.Unsigned.of_to n) at 1.
  rewrite DecimalNat.Unsigned.to_of. apply unorm_nonnil.
Qed.

Lemma of_nat_inj a b : PyStr.of_nat a = PyStr.of_nat b -> a = b.
Proof.
  unfold PyStr.of_nat. intros H. apply DecimalNat.Unsigned.to_uint_inj.
  apply (f_equal NilZero.uint_of_string) in H.
  rewrite !NilZero.usu in H by apply to_uint_nonnil. congruence.
Qed.

Lemma lstrip_of_nat n : lstrip (PyStr.of_nat n) = PyStr.of_nat n.
Proof.
  unfold PyStr.of_nat, NilZero.string_of_uint.
  destruct (Nat.to_uint n) eqn:E; try reflexivity.
Qed.

Lemma lstrip_spaces k s : lstrip (PyStr.spaces k +:+ s) = lstrip s.
Proof. induction k as [|k IH]; simpl; done. Qed.

Lemma rjust6_inj a b : PyStr.rjust6 a = PyStr.rjust6 b -> a = b.
Proof.
  unfold PyStr.rjust6. intros H. apply (f_equal lstrip) in H.
  rewrite !lstrip_spaces, !lstrip_of_nat in H. by apply of_nat_inj.
Qed.

Lemma numbered_join (ls : list string) :
  ls <> [] -> Forall (fun l => has_char PyStr.nl l = false) ls ->
  FileTool.numbered (PyStr.join PyStr.NL ls)
  = PyStr.join "" (imap (fun j line => PyStr.rjust6 (j + 1) +:+ PyStr.TAB
                                       +:+ line +:+ PyStr.NL) ls).
Proof.
  intros Hne Hall. unfold FileTool.numbered.
  rewrite (split_join _ Hne Hall), number_from_imap. done.
Qed.

(** C10: a view of the lines [start] to [end_] of a file (or to the end,
    for -1) lists the selected lines under the labels 1, 2, 3, ...; the
    [j]-th selected line is line [start + j - 1] of the file, so a label is
    the line's number in the file exactly when [start] is 1. *)
Theorem view_range_numbers_from_one (path c : string) (w : World) (start end_ : Z) :
  files w !! path = Some (File c) ->
  let lines := PyStr.split PyStr.nl c in
  (1 <= start <= Z.of_nat (length lines))%Z ->
  (end_ = -1 \/ start <= end_ <= Z.of_nat (length lines))%Z ->
  let selected :=
    if (end_ =? -1)%Z then drop (Z.to_nat (start - 1)) lines
    else FileTool.slice (Z.to_nat (start - 1)) (Z.to_nat end_) lines in
  FileTool.view path (Some [start; end_]) w
  = result_output
      ("Contents of " +:+ path +:+ ":" +:+ PyStr.NL
       +:+ PyStr.join "" (imap (fun j line => PyStr.rjust6 (j + 1) +:+ PyStr.TAB
                                              +:+ line +:+ PyStr.NL) selected))
  /\ selected <> []
  /\ (forall j line, selected !! j = Some line ->
        lines !! (Z.to_nat (start - 1) + j) = Some line)
  /\ (forall j, PyStr.rjust6 (j + 1) = PyStr.rjust6 (Z.to_nat (start - 1) + j + 1)
                <-> start = 1%Z).
Proof.
  intros Hf lines [Hlo Hhi] Hend selected.
  assert (Hall : Forall (fun l => has_char PyStr.nl l = false) selected).
  { subst selected. destruct (end_ =? -1)%Z.
    - apply Forall_drop, split_pieces.
    - apply Forall_drop, Forall_take, split_pieces. }
  assert (Hne : selected <> []).
  { subst selected. intros Hnil. apply (f_equal length) in Hnil. simpl in Hnil.
    destruct (Z.eqb_spec end_ (-1)) as [->|Hneq].
    - rewrite length_drop in Hnil. lia.
    - unfold FileTool.slice in Hnil. rewrite length_drop, length_take in Hnil. lia. }
  split; [|split; [done|split]].
  - unfold FileTool.view. rewrite Hf. fold lines.
    assert (H1 : (start <? 1)%Z = false) by lia.
    assert (H2 : (Z.of_nat (length lines) <? start)%Z = false) by lia.
    rewrite H1, H2. simpl orb. cbv iota.
    subst selected. destruct (Z.eqb_spec end_ (-1)) as [->|Hneq].
    + simpl. unfold FileTool.view_file. by rewrite (numbered_join _ Hne Hall).
    + assert (H3 : (end_ <? start)%Z = false) by lia.
      assert (H4 : (Z.of_nat (length lines) <? end_)%Z = false) by lia.
      rewrite H3, H4. simpl. unfold FileTool.view_file.
      by rewrite (numbered_join _ Hne Hall).
  - intros j line. subst selected. destruct (end_ =? -1)%Z.
    + by rewrite lookup_drop.
    + unfold FileTool.slice. rewrite lookup_drop. intros Hl.
      apply lookup_take_Some in Hl. by destruct Hl.
  - intros j. split.
    + intros Heq. apply rjust6_inj in Heq. lia.
    + intros ->. done.
Qed.

Lemma view_range_numbers_from_one_witness :
  FileTool.view "C:\notes.txt" (Some [5; 7]%Z) sample_world
  = result_output
      ("Contents of C:\notes.txt:" +:+ PyStr.NL
       +:+ "     1" +:+ PyStr.TAB +:+ "five" +:+ PyStr.NL
       +:+ "     2" +:+ PyStr.TAB +:+ "six" +:+ PyStr.NL
       +:+ "     3" +:+ PyStr.TAB +:+ "seven" +:+ PyStr.NL).
Proof.
  destruct (view_range_numbers_from_one "C:\notes.txt" sample_text sample_world 5 7 eq_refl)
    as (Hv & _).
  - vm_compute. split; discriminate.
  - right. vm_compute. split; discriminate.
  - rewrite Hv. reflexivity.
Defined.

(** The sample conversation: two shell commands in the first response,
    text in the second; the loop returns a log of four messages after two
    model calls. *)
Example run_conversation_sample :
  exists st, run_conversation 2 sample_service sample_tools "update the checkout" sample_world
             = Some st
    /\ map role (messages st) = [user; assistant; user; assistant]
    /\ model_calls (trace st) = 2
    /\ shell_log (world st) = [Spawned "echo hi"; Spawned "git fetch"].
Proof. eexists. split; [reflexivity|]. vm_compute. done. Qed.

(** ** The line listing of a non-unique match *)

Lemma startswith_empty old_str : old_str <> "" -> PyStr.startswith old_str "" = false.
Proof. by destruct old_str. Qed.

Lemma startswith_newline old_str s :
  old_str <> "" -> has_char PyStr.nl old_str = false ->
  PyStr.startswith old_str (String PyStr.nl s) = false.
Proof.
  destruct old_str as [|a p]; [done|]. simpl. intros _ H.
  apply orb_false_iff in H as [E _]. by rewrite E.
Qed.

(** A string without a newline starts a text exactly when it starts the
    text's first line. *)
Lemma startswith_first_line old_str : forall s l ls,
  has_char PyStr.nl old_str = false -> PyStr.split PyStr.nl s = l :: ls ->
  PyStr.startswith old_str s = PyStr.startswith old_str l.
Proof.
  induction old_str as [|a p IH]; intros s l ls Hno Hsplit; [done|].
  simpl in Hno. apply orb_false_iff in Hno as [Ea Hp].
  destruct s as [|b s'].
  - simpl in Hsplit. by injection Hsplit as <- <-.
  - simpl in Hsplit. destruct (Ascii.eqb b PyStr.nl) eqn:Eb.
    + injection Hsplit as <- <-. simpl.
      apply Ascii.eqb_eq in Eb as ->. by rewrite Ea.
    + destruct (split_nonempty PyStr.nl s') as (l' & ls' & Hs'). rewrite Hs' in Hsplit.
      injection Hsplit as <- <-. simpl. by rewrite (IH s' l' ls' Hp Hs').
Qed.

(** For an old string that lies within one line, the lines the error
    message lists are the lines in which an occurrence starts. *)
Lemma matching_lines_single_line (old_str : string) :
  old_str <> "" -> has_char PyStr.nl old_str = false ->
  forall (c : string) (i n : nat),
    n ∈ FileTool.matching_lines old_str i (PyStr.split PyStr.nl c)
    <-> n ∈ spec_occurrence_lines old_str (i + 1) c.
Proof.
  intros Hne Hno. induction c as [|a c' IH]; intros i n.
  - simpl. rewrite (startswith_empty _ Hne). simpl. done.
  - cbn [PyStr.split spec_occurrence_lines].
    destruct (Ascii.eqb a PyStr.nl) eqn:Ea.
    + apply Ascii.eqb_eq in Ea as ->. rewrite (startswith_newline _ _ Hne Hno).
      cbn [FileTool.matching_lines PyStr.contains].
      rewrite (startswith_empty _ Hne). simpl. apply (IH (S i)).
    + destruct (PyStr.split PyStr.nl c') as [|l ls] eqn:Hs.
      { destruct (split_nonempty PyStr.nl c') as (? & ? & ?). congruence. }
      assert (Hfirst : PyStr.startswith old_str (String a c')
                       = PyStr.startswith old_str (String a l)).
      { apply (startswith_first_line old_str (String a c') (String a l) ls Hno).
        simpl. by rewrite Ea, Hs. }
      specialize (IH i n). cbn [FileTool.matching_lines] in IH |- *.
      cbn [PyStr.contains]. rewrite Hfirst.
      destruct (PyStr.startswith old_str (String a l)); simpl.
      * rewrite !elem_of_cons, <- IH.
        destruct (PyStr.contains old_str l); [rewrite elem_of_cons|]; tauto.
      * exact IH.
Qed.

(** * Further properties of the code *)

(** ** ToolResult.replace *)

Lemma getattr_setattr_same r k v :
  k ∈ ["output"; "error"; "base64_image"; "system"] -> getattr (setattr r k v) k = v.
Proof.
  intros Hk. repeat (apply elem_of_cons in Hk as [->|Hk]; [reflexivity|]).
  by apply elem_of_nil in Hk.
Qed.

Lemma getattr_setattr_other r k k' v : k <> k' -> getattr (setattr r k' v) k = getattr r k.
Proof.
  intros Hne. unfold setattr.
  repeat match goal with
         | |- context [String.eqb k' ?s] =>
             destruct (String.eqb_spec k' s) as [->|?];
             [unfold getattr; simpl;
              repeat match goal with
                     | |- context [String.eqb k ?t] =>
                         destruct (String.eqb_spec k t) as [->|?]; try done
                     end|]
         end; done.
Qed.

Lemma foldl_setattr_absent kwargs : forall r k,
  k ∉ map fst kwargs ->
  getattr (foldl (fun result kv => setattr result (fst kv) (snd kv)) r kwargs) k
  = getattr r k.
Proof.
  induction kwargs as [|[k' v] rest IH]; intros r k Hk; simpl in *; [done|].
  apply not_elem_of_cons in Hk as [Hne Hrest].
  rewrite IH by done. by apply getattr_setattr_other.
Qed.

(** X1: [replace] copies every field that no keyword argument names, and
    gives a named field the value of the last argument naming it. *)
Theorem replace_overrides_named_fields (r : ToolResult)
    (kwargs : list (string * option string)) (k : string) :
  k ∈ ["output"; "error"; "base64_image"; "system"] ->
  (k ∉ map fst kwargs -> getattr (ToolResult_replace r kwargs) k = getattr r k)
  /\ (forall v more, k ∉ map fst more ->
        getattr (ToolResult_replace r (kwargs ++ (k, v) :: more)) k = v).
Proof.
  intros Hk. unfold ToolResult_replace.
  assert (Hcopy : mkToolResult (output r) (error r) (base64_image r) (system r) = r)
    by by destruct r.
  rewrite Hcopy. split.
  - apply foldl_setattr_absent.
  - intros v more Hmore. rewrite foldl_app. simpl.
    rewrite foldl_setattr_absent by done. by apply getattr_setattr_same.
Qed.

Lemma replace_overrides_named_fields_witness :
  getattr (ToolResult_replace (result_error "e") [("output", Some "x")]) "error" = Some "e"
  /\ getattr (ToolResult_replace (result_error "e") [("output", Some "x")]) "output"
     = Some "x".
Proof.
  split.
  - apply (replace_overrides_named_fields (result_error "e") [("output", Some "x")] "error").
    + set_solver.
    + simpl. intros H. apply elem_of_cons in H as [H|H]; [discriminate|].
      by apply elem_of_nil in H.
  - apply (replace_overrides_named_fields (result_error "e") [] "output");
      [set_solver | apply not_elem_of_nil].
Defined.

(** ** The system note of a result *)

(** Without output and error the system note takes no part in the
    conversion. *)
Lemma system_note_needs_text (r : ToolResult) (id : string) :
  PyStr.truthy (error r) = false -> PyStr.truthy (output r) = false ->
  _make_api_tool_result r id
  = _make_api_tool_result (mkToolResult (output r) (error r) (base64_image r) None) id.
Proof. intros He Ho. unfold _make_api_tool_result. simpl. by rewrite He, Ho. Qed.

(** X2: a restart request that reaches the command tool through the
    dispatcher, in an input without a key [self], runs nothing and gives a
    result that counts as non-empty, yet the item sent back to the model
    has no content at all: the restart note is a system note, which the
    conversion only attaches to output or error text. With a key [self]
    the call fails before the tool runs, and the model gets an error
    item. *)
Theorem restart_note_never_reaches_model (tc : ToolCollection)
    (tool_input : gmap string PyVal) (flag : PyVal) (w : World) (id : string) :
  tool_map tc !! "command" = Some CommandTool_tool ->
  tool_input !! "restart" = Some flag -> py_truthy flag = true ->
  (tool_input !! "self" = None ->
   run tc "command" tool_input w = (result_system "Command tool has been restarted.", w)
   /\ ToolResult_bool (fst (run tc "command" tool_input w)) = true
   /\ _make_api_tool_result (fst (run tc "command" tool_input w)) id
      = mkToolResultParam (ContentBlocks []) id false)
  /\ (tool_input !! "self" <> None ->
      run tc "command" tool_input w
      = (result_error ("Error executing tool command: "
                       +:+ str_of (runtime w) (MultipleValuesForSelf "CommandTool.__call__")),
         w)
      /\ is_error (_make_api_tool_result (fst (run tc "command" tool_input w)) id) = true).
Proof.
  intros Htool Hflag Htrue. split.
  - intros Hself.
    assert (Hrun : run tc "command" tool_input w
                   = (result_system "Command tool has been restarted.", w)).
    { unfold run. rewrite Htool. unfold CommandTool_tool. cbn [invoke].
      rewrite Hself, Hflag. cbn [default]. unfold Datatypes.id. rewrite Htrue.
      destruct (tool_input !! "command") as [[]|]; reflexivity. }
    rewrite Hrun. done.
  - intros Hself. unfold run. rewrite Htool. unfold CommandTool_tool. cbn [invoke].
    destruct (tool_input !! "self"); [|done]. split; reflexivity.
Qed.

Lemma restart_note_never_reaches_model_witness :
  _make_api_tool_result
    (fst (run sample_tools "command"
              {[ "restart" := VBool true; "command" := VStr "echo hi" ]} sample_world))
    "toolu_09"
  = mkToolResultParam (ContentBlocks []) "toolu_09" false.
Proof.
  pose proof (restart_note_never_reaches_model sample_tools
                {[ "restart" := VBool true; "command" := VStr "echo hi" ]} (VBool true)
                sample_world "toolu_09") as H.
  specialize (H ltac:(reflexivity) ltac:(reflexivity) ltac:(reflexivity)).
  destruct H as [H _]. exact (proj2 (proj2 (H ltac:(reflexivity)))).
Defined.

(** ** ComputerTool *)

Lemma take_screenshot_cases msg d :
  (exists png, ComputerTool.take_screenshot msg d
               = (Returns (mkToolResult (Some msg) None (Some png) None),
                  ComputerTool.act [ComputerTool.Settle; ComputerTool.Screenshot] d))
  \/ ComputerTool.take_screenshot msg d
     = (Returns (result_error "Failed to take screenshot"),
        ComputerTool.act [ComputerTool.Settle; ComputerTool.Screenshot] d)
  \/ (exists failure, ComputerTool.take_screenshot msg d
                      = (Raises failure,
                         ComputerTool.act [ComputerTool.Settle; ComputerTool.Screenshot] d)).
Proof.
  unfold ComputerTool.take_screenshot.
  destruct (ComputerTool.shot _ _) as [png| |failure];
    [left; by exists png | right; by left | right; right; by exists failure].
Qed.

(** X3: whatever the action, a call that gives both a text and a coordinate
    is refused with an error result and nothing happens on the desktop. *)
Theorem computer_text_and_coordinate_rejected (action t : string) (c : list Z)
    (d : ComputerTool.Desktop) :
  exists msg, ComputerTool.call action (Some t) (Some c) d = (Returns (result_error msg), d).
Proof.
  unfold ComputerTool.call.
  destruct (ComputerTool.is_in action ["mouse_move"; "left_click_drag"]);
    [destruct c as [|? [|? ?]]; eexists; reflexivity|].
  destruct (ComputerTool.is_in action ["key"; "type"]); [eexists; reflexivity|].
  destruct (ComputerTool.is_in action _); eexists; reflexivity.
Qed.



Lemma take_screenshot_success msg d r d' :
  ComputerTool.take_screenshot msg d = (Returns r, d') -> error r = None ->
  output r = Some msg /\ is_Some (base64_image r)
  /\ ComputerTool.gui_log d'
     = ComputerTool.gui_log d ++ [ComputerTool.Settle; ComputerTool.Screenshot].
Proof.
  destruct (take_screenshot_cases msg d) as [[png ->]|[->|[failure ->]]];
    [intros [= <- <-]|intros [= <- <-]; done|discriminate].
  intros _. simpl. eauto.
Qed.

(** X5: a call that succeeds has, for every action but [cursor_position],
    ended with the settle delay and a screenshot, and its result carries the
    output text and the image; [cursor_position] alone does nothing on the
    desktop and returns no image. *)
Theorem computer_success_ends_with_screenshot (action : string) (text : option string)
    (coordinate : option (list Z)) (d d' : ComputerTool.Desktop) (r : ToolResult) :
  ComputerTool.call action text coordinate d = (Returns r, d') -> error r = None ->
  (action = "cursor_position" -> d' = d /\ base64_image r = None /\ is_Some (output r))
  /\ (action <> "cursor_position" ->
      is_Some (output r) /\ is_Some (base64_image r)
      /\ exists evs, ComputerTool.gui_log d'
                     = ComputerTool.gui_log d ++ evs
                       ++ [ComputerTool.Settle; ComputerTool.Screenshot]).
Proof.
  intros H Hok. unfold ComputerTool.call in H.
  repeat case_match; simplify_eq;
    repeat match goal with
           | H : String.eqb _ _ = true |- _ => apply String.eqb_eq in H; subst
           | H : String.eqb _ _ = false |- _ => apply String.eqb_neq in H
           end;
    try discriminate;
    (split; [intros Heq; try done; try (subst; discriminate) | intros Hne; try done]);
    try match goal with
        | H : ComputerTool.take_screenshot ?m ?d0 = _ |- _ =>
            destruct (take_screenshot_success _ _ _ _ H Hok) as (Ho & Hi & Hl);
            rewrite Ho; (split; [by eexists|]); (split; [done|]);
            rewrite Hl; simpl; rewrite <- ?app_assoc; first [by exists [] | by eexists]
        end.
Qed.

Lemma computer_success_ends_with_screenshot_witness :
  ComputerTool.gui_log (snd (ComputerTool.call "key" (Some "ctrl+s") None sample_desktop))
  = [ComputerTool.Hotkey ["ctrl"; "s"]; ComputerTool.Settle; ComputerTool.Screenshot]
  /\ snd (ComputerTool.call "cursor_position" None None sample_desktop) = sample_desktop.
Proof.
  split.
  - destruct (computer_success_ends_with_screenshot "key" (Some "ctrl+s") None
                sample_desktop _ _ (surjective_pairing _) eq_refl) as [_ H].
    destruct (H ltac:(discriminate)) as (_ & _ & evs & Hl). reflexivity.
  - destruct (computer_success_ends_with_screenshot "cursor_position" None None
                sample_desktop _ _ (surjective_pairing _) eq_refl) as [H _].
    exact (proj1 (H eq_refl)).
Defined.

Lemma is_in_absent action names :
  action ∉ names -> ComputerTool.is_in action names = false.
Proof.
  induction names as [|n names IH]; [done|]. intros Hnot.
  apply not_elem_of_cons in Hnot as [Hne Hrest]. unfold ComputerTool.is_in. simpl.
  destruct (String.eqb_spec action n); [done|]. by apply IH.
Qed.

(** X6: an action outside the ten the tool knows is answered with the
    error "Invalid action: <action>", whatever text and coordinate say, and
    nothing happens on the desktop. *)
Theorem computer_unknown_action (action : string) (text : option string)
    (coordinate : option (list Z)) (d : ComputerTool.Desktop) :
  action ∉ ["key"; "type"; "mouse_move"; "left_click"; "left_click_drag"; "right_click";
            "middle_click"; "double_click"; "screenshot"; "cursor_position"] ->
  ComputerTool.call action text coordinate d
  = (Returns (result_error ("Invalid action: " +:+ action)), d).
Proof.
  intros Hnot. unfold ComputerTool.call.
  rewrite !is_in_absent; [done|..]; intros Hin; apply Hnot;
    repeat (apply elem_of_cons in Hin as [->|Hin]; [by repeat constructor|]);
    by apply elem_of_nil in Hin.
Qed.

Lemma computer_unknown_action_witness :
  ComputerTool.call "scroll" None (Some [3; 4]%Z) sample_desktop
  = (Returns (result_error "Invalid action: scroll"), sample_desktop).
Proof.
  apply (computer_unknown_action "scroll" None (Some [3; 4]%Z) sample_desktop).
  intros H. repeat (apply elem_of_cons in H as [H|H]; [discriminate|]).
  by apply elem_of_nil in H.
Defined.

(** X7: the tool itself can raise. A move or drag whose coordinate has fewer
    than two entries, and a left click whose coordinate has exactly one,
    raise the index error of the list access before anything is done; a left
    click with an empty coordinate list clicks where the cursor is. *)
Theorem computer_short_coordinate_raises (action : string) (c : list Z)
    (d : ComputerTool.Desktop) :
  (action = "mouse_move" \/ action = "left_click_drag" ->
   length c < 2 ->
   ComputerTool.call action None (Some c) d = (Raises "list index out of range", d))
  /\ (length c = 1 ->
      ComputerTool.call "left_click" None (Some c) d
      = (Raises "list index out of range", d))
  /\ ComputerTool.call "left_click" None (Some []) d
     = ComputerTool.call "left_click" None None d
  /\ ComputerTool.call "left_click" None None d
     = ComputerTool.take_screenshot "Performed left_click"
         (ComputerTool.act [ComputerTool.Click None "left"] d).
Proof.
  split; [|split; [|split]]; try reflexivity.
  - intros [-> | ->] Hlen; destruct c as [|x [|y rest]]; simpl in Hlen; try lia;
      reflexivity.
  - intros Hlen. destruct c as [|x [|y rest]]; simpl in Hlen; try lia. reflexivity.
Qed.

Lemma computer_short_coordinate_raises_witness :
  ComputerTool.call "mouse_move" None (Some [640%Z]) sample_desktop
  = (Raises "list index out of range", sample_desktop).
Proof.
  destruct (computer_short_coordinate_raises "mouse_move" [640%Z] sample_desktop)
    as [H _].
  apply H; [by left | simpl; lia].
Defined.

(** ** More on the Python strings *)

(** Joining the pieces of a split gives the text back. *)
Lemma join_split (c : string) : PyStr.join PyStr.NL (PyStr.split PyStr.nl c) = c.
Proof.
  induction c as [|a c IH]; [done|]. cbn [PyStr.split].
  destruct (split_nonempty PyStr.nl c) as (l & ls & Hs). rewrite Hs in *.
  destruct (Ascii.eqb a PyStr.nl) eqn:Ea.
  - apply Ascii.eqb_eq in Ea as ->.
    change (PyStr.join PyStr.NL ("" :: l :: ls))
      with (String PyStr.nl (PyStr.join PyStr.NL (l :: ls))).
    by rewrite IH.
  - destruct ls as [|l' ls].
    + simpl in *. by rewrite IH.
    + change (PyStr.join PyStr.NL (String a l :: l' :: ls))
        with (String a (PyStr.join PyStr.NL (l :: l' :: ls))).
      by rewrite IH.
Qed.






(** [count] finds no occurrence exactly when the string is not contained. *)
Lemma count_zero_iff old_str c :
  PyStr.count old_str c = 0 <-> PyStr.contains old_str c = false.
Proof.
  destruct old_str as [|a o].
  - simpl. split; [done|]. by destruct c.
  - cbn [PyStr.count]. induction c as [|b c IH]; [done|].
    cbn [PyStr.count_from PyStr.contains].
    destruct (PyStr.startswith (String a o) (String b c)); [done|]. exact IH.
Qed.

(** ** FileTool as called by the dispatcher *)


Lemma create_error path text w :
  error (fst (FileTool.create path text w)) <> None ->
  snd (FileTool.create path text w) = w
  \/ exists why, writes (snd (FileTool.create path text w)) = writes w ++ [(path, text)]
                 /\ fst (FileTool.create path text w)
                    = FileTool.failed "Error creating file " path why w.
Proof.
  unfold FileTool.create. destruct (files w !! path); [by left|].
  pose proof (mkdir_parents_frame path w) as (_ & Hwr & _).
  destruct (mkdir_parents path w) as [[why|] wm] eqn:Hm; cbn [fst snd] in *.
  - left. unfold mkdir_parents in Hm. repeat case_match; congruence.
  - pose proof (write_text_cases path text wm) as (Hw & _).
    destruct (write_text path text wm) as [[why|] w2]; cbn [fst snd] in *; [|done].
    intros _. right. exists why. by rewrite <- Hwr.
Qed.

Lemma str_replace_error path old_str new_str w :
  error (fst (FileTool.str_replace path old_str new_str w)) <> None ->
  snd (FileTool.str_replace path old_str new_str w) = w
  \/ exists text why,
       writes (snd (FileTool.str_replace path old_str new_str w)) = writes w ++ [(path, text)]
       /\ fst (FileTool.str_replace path old_str new_str w)
          = FileTool.failed "Error replacing text in " path why w.
Proof.
  unfold FileTool.str_replace. destruct (files w !! path) as [[c| |]|]; try by left.
  destruct (PyStr.count old_str c) as [|[|n]]; try by left.
  cbn [Nat.eqb Nat.ltb Nat.leb].
  pose proof (write_text_cases path (PyStr.replace old_str new_str c)
                (FileTool.push_history path c w)) as (Hw & _).
  destruct (write_text _ _ _) as [[why|] w2]; cbn [fst snd] in *; [|done].
  intros _. right. by exists (PyStr.replace old_str new_str c), why.
Qed.

Lemma insert_error path line new_str w :
  error (fst (FileTool.insert path line new_str w)) <> None ->
  snd (FileTool.insert path line new_str w) = w
  \/ exists text why,
       writes (snd (FileTool.insert path line new_str w)) = writes w ++ [(path, text)]
       /\ fst (FileTool.insert path line new_str w)
          = FileTool.failed "Error inserting text in " path why w.
Proof.
  unfold FileTool.insert. destruct (files w !! path) as [[c| |]|]; try by left.
  destruct (_ || _); [by left|].
  match goal with |- context [write_text path ?t ?wb] =>
    pose proof (write_text_cases path t wb) as (Hw & _);
    destruct (write_text path t wb) as [[why|] w2]; cbn [fst snd] in *; [|done];
    intros _; right; by exists t, why end.
Qed.

Lemma undo_error path w :
  error (fst (FileTool.undo_edit path w)) <> None ->
  snd (FileTool.undo_edit path w) = w
  \/ exists text why,
       writes (snd (FileTool.undo_edit path w)) = writes w ++ [(path, text)]
       /\ fst (FileTool.undo_edit path w)
          = FileTool.failed "Error undoing edit in " path why w.
Proof.
  unfold FileTool.undo_edit. destruct (files w !! path) as [node|]; [|by left].
  destruct (_file_history w !! FileTool.history_key path w) as [stack|]; [|by left].
  destruct (FileTool.pop stack) as [[prev stack']|]; [|by left].
  match goal with |- context [write_text path ?t ?wb] =>
    pose proof (write_text_cases path t wb) as (Hw & _);
    destruct (write_text path t wb) as [[why|] w2]; cbn [fst snd] in *; [|done];
    intros _; right; by exists t, why end.
Qed.

(** X8: a call of the file tool that is given a path that is not absolute
    answers with an error and changes nothing. A call that reports an
    error, whatever the command and its other arguments, has either left
    the machine exactly as it was, or has called [write_text] once, on the
    path it was given, and reports the failure of that write under the
    heading of its command. *)
Theorem file_tool_error_cases (command path : string) (file_text : option string)
    (view_range : option (list Z)) (old_str new_str : option string)
    (insert_line : option Z) (w : World) :
  let p := Path (runtime w) path in
  let r := fst (FileTool_call command path file_text view_range
                              old_str new_str insert_line w) in
  let w' := snd (FileTool_call command path file_text view_range
                               old_str new_str insert_line w) in
  (is_absolute (runtime w) p = false ->
   r = result_error ("The path " +:+ path
                     +:+ " is not an absolute path, it should start with a drive letter.")
   /\ w' = w)
  /\ (error r <> None ->
      w' = w
      \/ exists text what why,
           writes w' = writes w ++ [(p, text)]
           /\ r = FileTool.failed what p why w
           /\ what ∈ ["Error creating file "; "Error replacing text in ";
                      "Error inserting text in "; "Error undoing edit in "]).
Proof.
  cbv zeta. unfold FileTool_call. split.
  { intros ->. done. }
  destruct (is_absolute (runtime w) (Path (runtime w) path)); cbn [negb]; [|by left].
  destruct (String.eqb command "view"); [by left|].
  destruct (String.eqb command "create").
  { destruct file_text as [text|]; [|by left].
    intros Herr. destruct (create_error _ _ _ Herr) as [H|(why & Hw & Hr)]; [by left|].
    right. exists text, "Error creating file ", why. split; [done|]. split; [done|].
    by left. }
  destruct (String.eqb command "str_replace").
  { destruct old_str as [old|]; [|by left].
    intros Herr. destruct (str_replace_error _ _ _ _ Herr) as [H|(text & why & Hw & Hr)];
      [by left|].
    right. exists text, "Error replacing text in ", why. split; [done|]. split; [done|].
    right. by left. }
  destruct (String.eqb command "insert").
  { destruct insert_line as [line|]; [|by left]. destruct new_str as [text|]; [|by left].
    intros Herr. destruct (insert_error _ _ _ _ Herr) as [H|(text' & why & Hw & Hr)];
      [by left|].
    right. exists text', "Error inserting text in ", why. split; [done|]. split; [done|].
    right. right. by left. }
  destruct (String.eqb command "undo_edit"); [|by left].
  intros Herr. destruct (undo_error _ _ Herr) as [H|(text & why & Hw & Hr)]; [by left|].
  right. exists text, "Error undoing edit in ", why. split; [done|]. split; [done|].
  right. right. right. by left.
Qed.

Lemma file_tool_error_cases_witness :
  snd (FileTool_call "str_replace" "notes.txt" None None
                     (Some "four") (Some "4") None sample_world)
  = sample_world
  /\ snd (FileTool_call "insert" "C:/notes.txt" None None
                        None (Some "zero") (Some 99%Z) sample_world)
     = sample_world
  /\ FileTool_call "str_replace" "C:\locked.txt" None None
                   (Some "keep") (Some "lose") None sample_world
     = (result_error
          "Error replacing text in C:\locked.txt: Permission denied: 'C:\locked.txt'",
        FileTool.push_history "C:\locked.txt" "keep"
          (log_write "C:\locked.txt" "lose" sample_world)).
Proof.
  pose proof (file_tool_error_cases "str_replace" "notes.txt" None None
                (Some "four") (Some "4") None sample_world) as [H1 _].
  pose proof (file_tool_error_cases "insert" "C:/notes.txt" None None
                None (Some "zero") (Some 99%Z) sample_world) as [_ H2].
  split; [|split].
  - exact (proj2 (H1 ltac:(reflexivity))).
  - destruct (H2 ltac:(vm_compute; discriminate)) as [H|(text & what & why & Hw & _)];
      [exact H|].
    vm_compute in Hw. discriminate Hw.
  - reflexivity.
Defined.

(** ** More on the text layer *)







(** ** Views *)

(** X10: an empty [view_range] is taken as none at all, for files and
    directories alike, and the ranges from line 1 to the end, written with
    -1 or with the number of the last line, show a file exactly as a view
    without range does. *)
Theorem view_full_range_is_plain_view (path c : string) (w : World) :
  FileTool.view path (Some []) w = FileTool.view path None w
  /\ (files w !! path = Some (File c) ->
      FileTool.view path (Some [1; -1]%Z) w = FileTool.view path None w
      /\ FileTool.view path
           (Some [1%Z; Z.of_nat (length (PyStr.split PyStr.nl c))]) w
         = FileTool.view path None w).
Proof.
  split.
  - unfold FileTool.view. by destruct (files w !! path) as [[| |]|].
  - intros Hf. unfold FileTool.view. rewrite Hf.
    destruct (split_nonempty PyStr.nl c) as (l & ls & Hs).
    set (n := Z.of_nat (length (PyStr.split PyStr.nl c))).
    assert (Hn : (1 <= n)%Z) by (subst n; rewrite Hs; simpl; lia).
    assert (H1 : (n <? 1)%Z = false) by lia.
    split.
    + simpl. fold n. rewrite H1. simpl.
      change (Z.to_nat (1 - 1)) with 0. rewrite drop_0. by rewrite join_split.
    + simpl. fold n. rewrite H1. simpl.
      assert (H2 : (n <? n)%Z = false) by lia.
      assert (H3 : (n =? -1)%Z = false) by lia.
      rewrite H2, H3. simpl. unfold FileTool.slice.
      change (Z.to_nat (1 - 1)) with 0. rewrite drop_0.
      subst n. rewrite Nat2Z.id, firstn_all. by rewrite join_split.
Qed.

Lemma view_full_range_is_plain_view_witness :
  FileTool.view "C:\notes.txt" (Some [1; -1]%Z) sample_world
  = FileTool.view "C:\notes.txt" None sample_world.
Proof.
  destruct (view_full_range_is_plain_view "C:\notes.txt" sample_text sample_world)
    as [_ H].
  exact (proj1 (H eq_refl)).
Defined.

(** X11: a ranged view of a file succeeds exactly when the start line is
    between 1 and the number of lines and the end line is -1 or between the
    start line and the number of lines; a non-empty range that is not a pair
    is refused. *)
Theorem view_range_validation (path c : string) (w : World) (start end_ : Z) :
  files w !! path = Some (File c) ->
  let n := Z.of_nat (length (PyStr.split PyStr.nl c)) in
  (error (FileTool.view path (Some [start; end_]) w) = None
   <-> (1 <= start <= n /\ (end_ = -1 \/ start <= end_ <= n))%Z)
  /\ (forall range, range <> [] -> length range <> 2 ->
        FileTool.view path (Some range) w
        = result_error "Invalid `view_range`. It should be a list of two integers.").
Proof.
  intros Hf n. split.
  - unfold FileTool.view. rewrite Hf. fold n.
    destruct (Z.ltb_spec start 1); simpl; [split; [done | lia]|].
    destruct (Z.ltb_spec n start); simpl; [split; [done | lia]|].
    destruct (Z.eqb_spec end_ (-1)); simpl; [split; [lia | done]|].
    destruct (Z.ltb_spec end_ start); simpl; [split; [done | lia]|].
    destruct (Z.ltb_spec n end_); simpl; [split; [done | lia]|].
    split; [lia | done].
  - intros range Hne Hlen. unfold FileTool.view. rewrite Hf.
    destruct range as [|a [|b [|c' rest]]]; simpl in *; done.
Qed.

Lemma view_range_validation_witness :
  error (FileTool.view "C:\notes.txt" (Some [3; 9]%Z) sample_world) <> None
  /\ error (FileTool.view "C:\notes.txt" (Some [3; 8]%Z) sample_world) = None.
Proof.
  destruct (view_range_validation "C:\notes.txt" sample_text sample_world 3 9 eq_refl)
    as [H1 _].
  destruct (view_range_validation "C:\notes.txt" sample_text sample_world 3 8 eq_refl)
    as [H2 _].
  split.
  - intros Hnone. apply H1 in Hnone. vm_compute in Hnone.
    destruct Hnone as [_ [Hc | [_ Hc]]]; [discriminate | by apply Hc].
  - apply H2. vm_compute. split; [split; discriminate | right; split; discriminate].
Defined.

(** ** Insertion *)





(** ** Creation and the undo history *)











(** ** Registration of tools *)

(** X15: when several tools are registered under one name, the dispatcher
    reaches the last of them only: a call under that name does what a
    collection holding that tool alone would do. *)
Theorem last_registration_wins (ts1 ts2 : list Tool) (t : Tool)
    (tool_input : gmap string PyVal) (w : World) :
  tool_name t ∉ map tool_name ts2 ->
  tool_map (ToolCollection_init (ts1 ++ t :: ts2)) !! tool_name t = Some t
  /\ run (ToolCollection_init (ts1 ++ t :: ts2)) (tool_name t) tool_input w
     = run (ToolCollection_init [t]) (tool_name t) tool_input w.
Proof.
  intros Hnot.
  assert (Hmap : build_tool_map (ts1 ++ t :: ts2) !! tool_name t = Some t).
  { unfold build_tool_map. rewrite foldl_app. simpl.
    rewrite foldl_tool_map_absent by done. apply lookup_insert_eq. }
  split; [exact Hmap|]. unfold run. cbn [tool_map ToolCollection_init].
  rewrite Hmap. unfold build_tool_map. simpl. by rewrite lookup_insert_eq.
Qed.

Lemma last_registration_wins_witness :
  run (ToolCollection_init
         [mkTool "command" (fun _ w => (Returns (result_output "first"), w));
          CommandTool_tool])
      "command" ∅ sample_world
  = (result_error "No command provided.", sample_world).
Proof.
  destruct (last_registration_wins
              [mkTool "command" (fun _ w => (Returns (result_output "first"), w))] []
              CommandTool_tool ∅ sample_world) as [_ H].
  { apply not_elem_of_nil. }
  transitivity (run (ToolCollection_init [CommandTool_tool]) "command" ∅ sample_world);
    [exact H | reflexivity].
Defined.

(** ** Invariants of the sampling loop *)

Lemma iteration_messages svc tc st :
  exists added,
    messages (state_of (iteration svc tc st)) = messages st ++ added
    /\ match iteration svc tc st with
       | Again _ => map role added = [assistant; user]
       | Return _ => map role added = [assistant] \/ added = []
       end.
Proof.
  unfold iteration.
  destruct (svc (model_calls (trace st)) (messages st)) as [e | e | response].
  - exists []. simpl. rewrite app_nil_r. auto.
  - exists []. simpl. rewrite app_nil_r. auto.
  - destruct (run_blocks tc (_response_to_params response) [] (world st) _)
      as [[items w] tr].
    destruct items as [|item items]; simpl.
    + eexists. split; [reflexivity|]. by left.
    + eexists. rewrite <- app_assoc. split; [reflexivity|]. done.
Qed.

(** X16: the loop only ever appends to the log: whatever the service
    answers and however many passes are made, the log the loop returns
    starts with the log it was given. A conversation therefore returns a
    log whose first message is the user's request. *)
Theorem loop_log_is_append_only (fuel : nat) (svc : Service) (tc : ToolCollection) :
  forall st st',
    _sampling_loop fuel svc tc st = Some st' ->
    messages st `prefix_of` messages st'.
Proof.
  induction fuel as [|fuel IH]; intros st st' Hloop; [done|].
  simpl in Hloop.
  destruct (iteration_messages svc tc st) as (added & Hm & _).
  destruct (iteration svc tc st) as [st1 | st1]; simpl in Hm.
  - injection Hloop as <-. rewrite Hm. by apply prefix_app_r.
  - apply IH in Hloop. etrans; [|exact Hloop]. rewrite Hm. by apply prefix_app_r.
Qed.

Lemma loop_log_is_append_only_witness :
  exists st', run_conversation 2 sample_service sample_tools "update the checkout"
                               sample_world = Some st'
    /\ [mkMessage user (Blocks [TextParam "update the checkout"])]
       `prefix_of` messages st'.
Proof.
  unfold run_conversation.
  destruct (_sampling_loop 2 sample_service sample_tools
              (mkLoopState [mkMessage user (Blocks [TextParam "update the checkout"])]
                           sample_world [])) as [st'|] eqn:Hloop;
    [|vm_compute in Hloop; discriminate].
  exists st'. split; [reflexivity|].
  exact (loop_log_is_append_only 2 sample_service sample_tools _ _ Hloop).
Defined.

Lemma alternates_app first roles added :
  alternates first roles = true ->
  alternates (if Nat.even (length roles) then first
              else match first with user => assistant | assistant => user end)
             added = true ->
  alternates first (roles ++ added) = true.
Proof.
  revert first. induction roles as [|r roles IH]; intros first Hr Ha; [exact Ha|].
  cbn [length] in Ha. rewrite Nat.even_succ, <- Nat.negb_even in Ha.
  cbn [alternates app] in *.
  destruct first, r; try done; apply IH; try done;
    by destruct (Nat.even (length roles)).
Qed.

(** X17: roles keep alternating. If the log given to the loop alternates
    between user and assistant, starting and ending with a user message,
    then so does the log of every pass that goes on, and the log the loop
    returns alternates as well, starting with a user message. *)
Theorem loop_roles_alternate (fuel : nat) (svc : Service) (tc : ToolCollection) :
  forall st st',
    alternates user (map role (messages st)) = true ->
    Nat.Odd (length (messages st)) ->
    _sampling_loop fuel svc tc st = Some st' ->
    alternates user (map role (messages st')) = true.
Proof.
  induction fuel as [|fuel IH]; intros st st' Halt Hodd Hloop; [done|].
  simpl in Hloop.
  destruct (iteration_messages svc tc st) as (added & Hm & Hroles).
  assert (Heven : Nat.even (length (map role (messages st))) = false).
  { rewrite length_map, <- Nat.negb_odd. apply Nat.odd_spec in Hodd. by rewrite Hodd. }
  destruct (iteration svc tc st) as [st1 | st1]; simpl in Hm.
  - injection Hloop as <-. rewrite Hm, map_app.
    apply alternates_app; [done|]. rewrite Heven.
    destruct Hroles as [-> | ->]; done.
  - apply (IH st1 st'); [| |done].
    + rewrite Hm, map_app. apply alternates_app; [done|]. rewrite Heven.
      by rewrite Hroles.
    + rewrite Hm, length_app, <- (length_map role added), Hroles. simpl.
      destruct Hodd as [k ->]. exists (S k). lia.
Qed.

Lemma loop_roles_alternate_witness :
  exists st', _sampling_loop 2 sample_service sample_tools sample_start = Some st'
    /\ alternates user (map role (messages st')) = true.
Proof.
  destruct (_sampling_loop 2 sample_service sample_tools sample_start) as [st'|] eqn:Hloop;
    [|vm_compute in Hloop; discriminate].
  exists st'. split; [reflexivity|].
  apply (loop_roles_alternate 2 sample_service sample_tools sample_start st');
    [reflexivity | by exists 0 | exact Hloop].
Defined.

Lemma output_blocks_app tr1 tr2 :
  output_blocks (tr1 ++ tr2) = output_blocks tr1 ++ output_blocks tr2.
Proof. apply omap_app. Qed.

Lemma tool_outputs_app tr1 tr2 :
  tool_outputs (tr1 ++ tr2) = tool_outputs tr1 ++ tool_outputs tr2.
Proof. apply omap_app. Qed.

(** What the block loop tells the two observers. *)
Lemma run_blocks_callbacks tc blocks : forall acc w tr,
  exists ext,
    snd (run_blocks tc blocks acc w tr) = tr ++ ext
    /\ output_blocks ext = blocks
    /\ fst (fst (run_blocks tc blocks acc w tr))
       = acc ++ map (fun p => _make_api_tool_result (fst p) (snd p)) (tool_outputs ext).
Proof.
  induction blocks as [|b rest IH]; intros acc w tr.
  - exists []. simpl. by rewrite !app_nil_r.
  - destruct b as [text | t id name input].
    + cbn [run_blocks].
      destruct (IH acc w (tr ++ [OutputBlock (TextParam text)])) as (ext & Ht & Ho & Hi).
      exists (OutputBlock (TextParam text) :: ext).
      rewrite Ht, Hi, <- app_assoc. simpl. by rewrite Ho.
    + cbn [run_blocks]. destruct (is_tool_use (DumpParam t id name input)).
      * destruct (run tc name input w) as [result w1].
        destruct (IH (acc ++ [_make_api_tool_result result id]) w1
                     ((tr ++ [OutputBlock (DumpParam t id name input)])
                        ++ [ToolOutput result id])) as (ext & Ht & Ho & Hi).
        exists (OutputBlock (DumpParam t id name input) :: ToolOutput result id :: ext).
        rewrite Ht, Hi, <- !app_assoc. simpl. by rewrite Ho.
      * destruct (IH acc w (tr ++ [OutputBlock (DumpParam t id name input)]))
          as (ext & Ht & Ho & Hi).
        exists (OutputBlock (DumpParam t id name input) :: ext).
        rewrite Ht, Hi, <- app_assoc. simpl. by rewrite Ho.
Qed.

(** X18: in a pass on a parsed response the output observer is given every
    block of the response once, in order, text and other blocks included;
    the tool observer is given the raw result of every tool invocation
    under its id; and the items of the user message appended to the log are
    those same results, converted, in the same order. *)
Theorem observers_see_what_the_model_gets (svc : Service) (tc : ToolCollection)
    (st : LoopState) (response : list ResponseBlock) :
  svc (model_calls (trace st)) (messages st) = Parsed response ->
  let st' := state_of (iteration svc tc st) in
  exists ext,
    trace st' = trace st ++ ModelCall (messages st) :: ApiResponse None :: ext
    /\ output_blocks ext = _response_to_params response
    /\ map snd (tool_outputs ext)
       = map (fun u => fst (fst u)) (tool_uses (_response_to_params response))
    /\ messages st'
       = messages st
         ++ mkMessage assistant (Blocks (_response_to_params response))
            :: match tool_outputs ext with
               | [] => []
               | outs => [mkMessage user
                            (Results (map (fun p => _make_api_tool_result (fst p) (snd p))
                                          outs))]
               end.
Proof.
  intros Hsvc st'. subst st'. unfold iteration. rewrite Hsvc.
  destruct (run_blocks_callbacks tc (_response_to_params response) [] (world st)
              ((trace st ++ [ModelCall (messages st)]) ++ [ApiResponse None]))
    as (ext & Ht & Ho & Hi).
  destruct (run_blocks_dispatch tc (_response_to_params response) [] (world st)
              ((trace st ++ [ModelCall (messages st)]) ++ [ApiResponse None]))
    as (ext' & Hrun & _).
  pose proof (dispatch_all_ids tc (tool_uses (_response_to_params response)) (world st))
    as Hids.
  rewrite Hrun in Ht, Hi. simpl in Ht, Hi.
  apply app_inv_head in Ht. subst ext'. rewrite Hi in Hids.
  rewrite map_map in Hids. simpl in Hids.
  assert (Hsnd : map snd (tool_outputs ext)
                 = map (fun x => tool_use_id (_make_api_tool_result (fst x) (snd x)))
                       (tool_outputs ext)).
  { apply map_ext. intros [r id]. simpl. by rewrite make_api_tool_result_id. }
  exists ext. rewrite Hrun. rewrite Hi.
  destruct (tool_outputs ext) as [|out outs] eqn:Houts; simpl.
  - rewrite <- !app_assoc. simpl. repeat split; done.
  - rewrite <- !app_assoc. simpl. repeat split; try done.
    rewrite <- Hids. exact Hsnd.
Qed.

Lemma observers_see_what_the_model_gets_witness :
  exists ext,
    trace sample_second = ModelCall (messages sample_start) :: ApiResponse None :: ext
    /\ map snd (tool_outputs ext) = ["toolu_01"; "toolu_02"].
Proof.
  destruct (observers_see_what_the_model_gets sample_service sample_tools sample_start
              _ eq_refl) as (ext & Ht & _ & Hids & _).
  exists ext. split; [exact Ht | exact Hids].
Defined.

(** ** String replacement: which answer is given when *)



(** ** The extension registry and manager *)

(** X22: registration under a name that is taken replaces the extension
    held there; unregistering removes the name, without bringing back what
    was replaced, and unregistering a name that is free changes nothing;
    registering under a free name and unregistering it again gives the
    registry back. *)
Theorem register_replaces_unregister_removes (e1 e2 : Extensions.Extension)
    (reg : Extensions.Registry) :
  Extensions.ext_name e1 = Extensions.ext_name e2 ->
  let name := Extensions.ext_name e2 in
  Extensions.get_extension name (Extensions.register e2 (Extensions.register e1 reg))
  = Some e2
  /\ Extensions.get_extension name
       (Extensions.unregister name (Extensions.register e2 (Extensions.register e1 reg)))
     = None
  /\ (Extensions.get_extension name reg = None ->
      Extensions.unregister name reg = reg
      /\ Extensions.unregister name (Extensions.register e2 reg) = reg).
Proof.
  intros Hname name. unfold Extensions.get_extension, Extensions.register,
    Extensions.unregister. simpl. fold name.
  split; [by rewrite lookup_insert_eq|]. split; [by rewrite lookup_delete_eq|].
  intros Hfree. destruct reg as [exts dirs]. simpl in *. split; f_equal.
  - by apply delete_id.
  - rewrite delete_insert_eq. by apply delete_id.
Qed.

Lemma register_replaces_unregister_removes_witness :
  Extensions.get_extension "web_search"
    (Extensions.register Extensions.sample_search
       (Extensions.register (Extensions.disable Extensions.sample_search)
                            Extensions.Registry_init))
  = Some Extensions.sample_search.
Proof.
  apply (register_replaces_unregister_removes
           (Extensions.disable Extensions.sample_search) Extensions.sample_search
           Extensions.Registry_init eq_refl).
Defined.

(** X23: a disabled extension is not run: after [disable_extension] a call
    under its name gives None whatever the extension would have answered,
    and after [enable_extension] it gives the extension's answer again, or
    None if the extension fails; calls under other names are not affected. *)
Theorem disabled_extension_is_not_run (extension_name : string)
    (e : Extensions.Extension) (args : list PyVal) (kwargs : gmap string PyVal)
    (reg : Extensions.Registry) :
  Extensions.get_extension extension_name reg = Some e ->
  let off := snd (Extensions.disable_extension extension_name reg) in
  let on := snd (Extensions.enable_extension extension_name off) in
  fst (Extensions.disable_extension extension_name reg) = true
  /\ Extensions.execute_extension extension_name args kwargs off = VNone
  /\ Extensions.execute_extension extension_name args kwargs on
     = match Extensions.execute e args kwargs with
       | Extensions.Gives result => result
       | Extensions.Fails _ => VNone
       end
  /\ (forall other, other <> extension_name ->
        Extensions.execute_extension other args kwargs off
        = Extensions.execute_extension other args kwargs reg).
Proof.
  intros Hget off on. subst on off.
  unfold Extensions.disable_extension, Extensions.enable_extension,
    Extensions.execute_extension, Extensions.get_extension, Extensions.update in *.
  rewrite Hget. simpl. rewrite lookup_alter_eq, Hget. simpl.
  rewrite lookup_alter_eq, lookup_alter_eq, Hget. simpl.
  repeat split; try done.
  intros other Hne. by rewrite lookup_alter_ne.
Qed.

Lemma disabled_extension_is_not_run_witness :
  Extensions.execute_extension "web_search" [VStr "rocq"] ∅
    (snd (Extensions.disable_extension "web_search"
            (Extensions.register Extensions.sample_search Extensions.Registry_init)))
  = VNone.
Proof.
  apply (disabled_extension_is_not_run "web_search" Extensions.sample_search
           [VStr "rocq"] ∅
           (Extensions.register Extensions.sample_search Extensions.Registry_init)).
  reflexivity.
Defined.

Lemma add_extension_dir_extensions isdir directory reg :
  Extensions.extensions (Extensions.add_extension_dir isdir directory reg)
  = Extensions.extensions reg.
Proof. unfold Extensions.add_extension_dir. by destruct (_ && _). Qed.

Lemma load_config_on_empty isdir cfg reg :
  Extensions.extensions reg = ∅ ->
  Extensions.extensions (Extensions._load_config isdir cfg reg) = ∅.
Proof.
  intros Hempty. unfold Extensions._load_config.
  assert (Hdirs : forall dirs r, Extensions.extensions r = ∅ ->
            Extensions.extensions
              (foldl (fun r d => Extensions.add_extension_dir isdir d r) r dirs) = ∅).
  { induction dirs as [|d dirs IH]; intros r Hr; [done|]. simpl.
    apply IH. by rewrite add_extension_dir_extensions. }
  generalize (Hdirs (Extensions.cfg_extension_dirs cfg) reg Hempty).
  generalize (foldl (fun r d => Extensions.add_extension_dir isdir d r) reg
                    (Extensions.cfg_extension_dirs cfg)).
  induction (Extensions.cfg_extensions cfg) as [|[name ext_config] rest IH];
    intros r Hr; [done|].
  simpl. unfold Extensions.get_extension. rewrite Hr, lookup_empty. by apply IH.
Qed.

Lemma discover_keeps_fresh isdir found :
  (forall directory e, e ∈ found directory -> Extensions.fresh e) ->
  forall reg,
    (forall name e, Extensions.extensions reg !! name = Some e -> Extensions.fresh e) ->
    forall name e,
      Extensions.extensions (Extensions.discover_extensions isdir found reg) !! name
      = Some e -> Extensions.fresh e.
Proof.
  intros Hfound reg. unfold Extensions.discover_extensions.
  generalize (Extensions.extension_dirs reg) as dirs. intros dirs. revert reg.
  assert (Hreg : forall es r,
            (forall e, e ∈ es -> Extensions.fresh e) ->
            (forall name e, Extensions.extensions r !! name = Some e -> Extensions.fresh e) ->
            forall name e,
              Extensions.extensions (foldl (fun r' e => Extensions.register e r') r es)
                !! name = Some e -> Extensions.fresh e).
  { induction es as [|e0 es IH]; intros r Hes Hr; [exact Hr|]. simpl.
    apply IH.
    - intros e He. apply Hes. by right.
    - intros name e. unfold Extensions.register. simpl.
      destruct (decide (Extensions.ext_name e0 = name)) as [<-|Hne].
      + rewrite lookup_insert_eq. intros [= <-]. apply Hes. by left.
      + rewrite lookup_insert_ne by done. apply Hr. }
  induction dirs as [|d dirs IH]; intros reg Hr; [exact Hr|]. simpl.
  apply IH. destruct (isdir d); [|exact Hr].
  apply Hreg; [apply Hfound | exact Hr].
Qed.

(** X24: [initialize] reads the configuration before it discovers any
    extension, and configuration is only given to extensions that are
    registered. On a manager that was just made, whose registry is empty,
    the settings of the configuration file therefore reach no extension:
    whatever the file says, every extension registered by [initialize] is
    enabled and has an empty configuration, as its constructor left it. *)
Theorem initialize_configures_no_extension (isdir : string -> bool)
    (found : string -> list Extensions.Extension) (cfg : option Extensions.ConfigFile)
    (name : string) (e : Extensions.Extension) :
  (forall directory e', e' ∈ found directory -> Extensions.fresh e') ->
  Extensions.extensions
    (Extensions.initialize isdir found cfg Extensions.Registry_init) !! name = Some e ->
  Extensions.enabled e = true /\ Extensions.config e = ∅.
Proof.
  intros Hfound. unfold Extensions.initialize.
  apply (discover_keeps_fresh isdir found Hfound).
  intros name' e'. destruct cfg as [c|].
  - by rewrite load_config_on_empty.
  - done.
Qed.

Lemma initialize_configures_no_extension_witness :
  exists e,
    Extensions.extensions
      (Extensions.initialize (fun _ => true) Extensions.sample_found
         (Some Extensions.sample_config) Extensions.Registry_init) !! "web_search" = Some e
    /\ Extensions.enabled e = true /\ Extensions.config e = ∅.
Proof.
  exists Extensions.sample_search.
  assert (Hl : Extensions.extensions
                 (Extensions.initialize (fun _ => true) Extensions.sample_found
                    (Some Extensions.sample_config) Extensions.Registry_init)
                 !! "web_search" = Some Extensions.sample_search) by reflexivity.
  split; [exact Hl|].
  apply (initialize_configures_no_extension (fun _ => true) Extensions.sample_found
           (Some Extensions.sample_config) "web_search" Extensions.sample_search);
    [|exact Hl].
  intros directory e'. unfold Extensions.sample_found.
  destruct (String.eqb directory "extensions"); intros He.
  - apply elem_of_cons in He as [->|He]; [done|].
    apply elem_of_cons in He as [->|He]; [done|]. by apply elem_of_nil in He.
  - by apply elem_of_nil in He.
Defined.





(** ** String replacement: when it edits, and what it lists *)



Lemma occurrence_lines_nonempty old_str : forall c line,
  PyStr.contains old_str c = true -> spec_occurrence_lines old_str line c <> [].
Proof.
  induction c as [|a c IH]; intros line; cbn [PyStr.contains spec_occurrence_lines].
  - rewrite orb_false_r. by intros ->.
  - destruct (PyStr.startswith old_str (String a c)); [done|]. simpl.
    apply IH.
Qed.

(** X21: when an old string that lies within one line is found more than
    once, the error message lists at least one line, and it lists exactly
    the lines of the file in which an occurrence starts. *)
Theorem multiple_occurrences_list_their_lines (path c old_str new_str : string)
    (w : World) :
  files w !! path = Some (File c) ->
  old_str <> "" -> has_char PyStr.nl old_str = false ->
  1 < PyStr.count old_str c ->
  let listed := FileTool.matching_lines old_str 0 (PyStr.split PyStr.nl c) in
  FileTool.str_replace path old_str new_str w
  = (result_error ("Multiple occurrences of old_str `" +:+ old_str +:+ "` in lines "
                   +:+ PyStr.repr_list listed +:+ ". Please ensure it is unique."), w)
  /\ listed <> []
  /\ (forall n, n ∈ listed <-> n ∈ spec_occurrence_lines old_str 1 c).
Proof.
  intros Hf Hne Hno Hcount listed.
  assert (Hiff : forall n, n ∈ listed <-> n ∈ spec_occurrence_lines old_str 1 c).
  { intros n. apply (matching_lines_single_line old_str Hne Hno c 0 n). }
  split; [|split; [|exact Hiff]].
  - unfold FileTool.str_replace. rewrite Hf.
    destruct (PyStr.count old_str c) as [|[|k]]; [lia | lia | done].
  - assert (Hcontains : PyStr.contains old_str c = true).
    { destruct (PyStr.contains old_str c) eqn:E; [done|].
      apply count_zero_iff in E. lia. }
    pose proof (occurrence_lines_nonempty old_str c 1 Hcontains) as Hocc.
    destruct (spec_occurrence_lines old_str 1 c) as [|n occ] eqn:Eocc; [done|].
    intros Hnil. assert (Hn : n ∈ listed) by (apply Hiff; by left).
    rewrite Hnil in Hn. by apply elem_of_nil in Hn.
Qed.

Lemma multiple_occurrences_list_their_lines_witness :
  FileTool.str_replace "C:\twice.txt" "a" "z" sample_world
  = (result_error "Multiple occurrences of old_str `a` in lines [1, 3]. Please ensure it is unique.",
     sample_world).
Proof.
  destruct (multiple_occurrences_list_their_lines "C:\twice.txt" twice_text "a" "z"
              sample_world eq_refl) as (H & _).
  - discriminate.
  - reflexivity.
  - vm_compute. lia.
  - rewrite H. reflexivity.
Defined.
